(** * Pentagram AirPlay receiver: the native FairPlay and mirror-buffer bindings

    A shallow embedding of the two JNI binding files
    [fairplay_jni.c] and [mirror_buffer_jni.c], and the properties of the
    handshake engine and of the stream decryptor that their callers rely on.

    The bindings call into two C libraries ([fairplay.h], [mirror_buffer.h])
    whose sources are not part of the tree.  The bindings are therefore
    embedded over an interface record holding the library entry points, and
    every property of the bindings alone is proved for an arbitrary
    implementation of that interface.  Properties that are decided inside
    the libraries are proved for a model of the libraries written from their
    specification. *)

From Stdlib Require Import ZArith Lia.
From Stdlib.Strings Require Byte Ascii.
From stdpp Require Import base numbers option list strings gmap.

(** ** C and JNI data *)

Abbreviation byte := Byte.byte.
Abbreviation x00 := Byte.x00.

(** [jbyteArray]: a Java byte array, or [NULL]. *)
Abbreviation jbyteArray := (option (list byte)).
Abbreviation NULL := (@None _).

Global Instance byte_eq_dec : EqDecision byte := Byte.byte_eq_dec.

(** The value of a byte as printed by [%d] / [%02X]. *)
Definition byte_to_Z (b : byte) : Z := Z.of_N (Byte.to_N b).

(** A call either returns, or faults (it dereferences a pointer that does not
    point to a live object, or hands [NULL] to a JNI function). *)
Inductive outcome (A : Type) : Type :=
  | Ret (a : A)
  | Fault.
Arguments Ret {A} a.
Arguments Fault {A}.

(** [__android_log_print(prio, tag, fmt, ...)]: one line of logcat. *)
Inductive log_priority := ANDROID_LOG_INFO | ANDROID_LOG_ERROR.

Record log_line := LogLine {
  priority : log_priority;
  tag : string;
  fmt : string;
  args : list Z
}.

(** An error line of logcat. *)
Definition is_error (l : log_line) : bool :=
  if priority l is ANDROID_LOG_ERROR then true else false.

Definition logs_error (log : list log_line) : bool := existsb is_error log.

(** The Java heap as the bindings see it: [NewByteArray] may fail. *)
Record JNIEnv := { heap_has_room : nat → bool }.

Definition GetArrayLength (a : list byte) : Z := Z.of_nat (length a).

(** [NewByteArray(env, n)]: a fresh zero-filled array, or [NULL]. *)
Definition NewByteArray (env : JNIEnv) (n : nat) : jbyteArray :=
  if heap_has_room env n then Some (replicate n x00) else NULL.

(** [GetByteArrayRegion(env, a, start, len, buf)]: the bytes copied to [buf]. *)
Definition GetByteArrayRegion (a : list byte) (start len : nat) : list byte :=
  take len (drop start a).

(** [SetByteArrayRegion(env, a, start, len, buf)]: [a] with the bytes
    [start .. start+len-1] replaced by [buf[0 .. len-1]].  A Java array never
    changes its length.  A byte of the C buffer that the library did not write
    is read as zero. *)
Definition SetByteArrayRegion (a : list byte) (start len : nat) (buf : list byte)
  : list byte :=
  imap (λ i x, if bool_decide (start ≤ i < start + len)
               then default x00 (buf !! (i - start)) else x) a.

(** ** [fairplay_jni.c] *)

Module FairPlayJNI.

Definition TAG : string := "FairPlayJNI".
Definition LOGI (f : string) (a : list Z) : log_line :=
  LogLine ANDROID_LOG_INFO TAG f a.
Definition LOGE (f : string) (a : list Z) : log_line :=
  LogLine ANDROID_LOG_ERROR TAG f a.

(** [struct logger_s { int dummy; }] *)
Record logger_s := { dummy : Z }.

(** [logger_init]: [calloc(1, sizeof(struct logger_s))]. *)
Definition logger_init : logger_s := {| dummy := 0 |}.

(** The entry points of [fairplay.h] used by the binding.  An engine object is
    a value of [fairplay_t]; a call that the C code makes on the pointer
    returns the new content of the object, the [int] result, and the bytes
    written to the result buffer. *)
Record fairplay_lib := {
  fairplay_t : Type;
  fairplay_init : logger_s → option fairplay_t;
  fairplay_setup : fairplay_t → list byte → fairplay_t * Z * list byte;
  fairplay_handshake : fairplay_t → list byte → fairplay_t * Z * list byte;
  fairplay_decrypt : fairplay_t → list byte → fairplay_t * Z * list byte
}.

Section Binding.
Context (lib : fairplay_lib) (env : JNIEnv).

(** [static fairplay_t *g_fairplay]: [None] is the null pointer. *)
Definition global := option (fairplay_t lib).

(** What a native method leaves behind: its return value, the global, and
    the lines it logged. *)
Definition result (A : Type) : Type := A * global * list log_line.

(** Returns 0 on success, -1 on failure ([logger_destroy] frees the logger
    on the failure path and leaves nothing behind). *)
Definition nativeInit (g_fairplay : global) : result Z :=
  match g_fairplay with
  | Some _ => (0%Z, g_fairplay, [LOGI "FairPlay already initialized" []])
  | None =>
      let logger := logger_init in
      match fairplay_init lib logger with
      | None => ((-1)%Z, None, [LOGE "Failed to initialize FairPlay" []])
      | Some fp => (0%Z, Some fp, [LOGI "FairPlay initialized successfully" []])
      end
  end.

Definition nativeSetup (g_fairplay : global) (request : list byte)
  : outcome (result jbyteArray) :=
  match g_fairplay with
  | None => Ret (NULL, g_fairplay, [LOGE "FairPlay not initialized" []])
  | Some fp =>
      let req_len := GetArrayLength request in
      if bool_decide (req_len ≠ 16%Z) then
        Ret (NULL, g_fairplay,
             [LOGE "Invalid request length: %d (expected 16)" [req_len]])
      else
        let req_data := GetByteArrayRegion request 0 16 in
        let '(fp', ret, res_data) := fairplay_setup lib fp req_data in
        if bool_decide (ret ≠ 0%Z) then
          Ret (NULL, Some fp', [LOGE "FairPlay setup failed: %d" [ret]])
        else
          match NewByteArray env 142 with
          | None => Fault
          | Some response =>
              Ret (Some (SetByteArrayRegion response 0 142 res_data), Some fp',
                   [LOGI "FairPlay setup successful" []])
          end
  end.

Definition nativeHandshake (g_fairplay : global) (request : list byte)
  : outcome (result jbyteArray) :=
  match g_fairplay with
  | None => Ret (NULL, g_fairplay, [LOGE "FairPlay not initialized" []])
  | Some fp =>
      let req_len := GetArrayLength request in
      if bool_decide (req_len ≠ 164%Z) then
        Ret (NULL, g_fairplay,
             [LOGE "Invalid request length: %d (expected 164)" [req_len]])
      else
        let req_data := GetByteArrayRegion request 0 164 in
        let '(fp', ret, res_data) := fairplay_handshake lib fp req_data in
        if bool_decide (ret ≠ 0%Z) then
          Ret (NULL, Some fp', [LOGE "FairPlay handshake failed: %d" [ret]])
        else
          match NewByteArray env 32 with
          | None => Fault
          | Some response =>
              Ret (Some (SetByteArrayRegion response 0 32 res_data), Some fp',
                   [LOGI "FairPlay handshake successful" []])
          end
  end.

Definition nativeDecrypt (g_fairplay : global) (encrypted_key : list byte)
  : outcome (result jbyteArray) :=
  match g_fairplay with
  | None => Ret (NULL, g_fairplay, [LOGE "FairPlay not initialized" []])
  | Some fp =>
      let ekey_len := GetArrayLength encrypted_key in
      if bool_decide (ekey_len ≠ 72%Z) then
        Ret (NULL, g_fairplay,
             [LOGE "Invalid ekey length: %d (expected 72)" [ekey_len]])
      else
        let ekey_data := GetByteArrayRegion encrypted_key 0 72 in
        let '(fp', ret, aes_key) := fairplay_decrypt lib fp ekey_data in
        if bool_decide (ret ≠ 0%Z) then
          Ret (NULL, Some fp', [LOGE "FairPlay decrypt failed: %d" [ret]])
        else
          let key_at i := byte_to_Z (default x00 (aes_key !! i)) in
          let lines :=
            [LOGI "FairPlay decrypt successful - got 16-byte AES key" [];
             LOGI "AES key: %02X %02X %02X %02X %02X %02X %02X %02X..."
                  (key_at <$> [0; 1; 2; 3; 4; 5; 6; 7]%nat)] in
          match NewByteArray env 16 with
          | None => Fault
          | Some result =>
              Ret (Some (SetByteArrayRegion result 0 16 aes_key), Some fp', lines)
          end
  end.

(** [fairplay_destroy] releases the engine object; the global is then set to
    [NULL]. *)
Definition nativeDestroy (g_fairplay : global) : result unit :=
  match g_fairplay with
  | Some _ => (tt, None, [LOGI "FairPlay destroyed" []])
  | None => (tt, g_fairplay, [])
  end.

(** What the Java caller receives from a call: the returned value, if the
    call returns. *)
Definition returned {A : Type} (r : outcome (result A)) : option A :=
  match r with
  | Ret (v, _, _) => Some v
  | Fault => None
  end.

(** The call a caller makes next, on the global that a call left behind. *)
Definition and_then {A B : Type} (r : outcome (result A))
    (next : global → outcome (result B)) : outcome (result B) :=
  match r with
  | Ret (_, g_fairplay, _) => next g_fairplay
  | Fault => Fault
  end.

End Binding.
End FairPlayJNI.

(** ** [mirror_buffer_jni.c] *)

Module MirrorBufferJNI.

Definition LOG_TAG : string := "MirrorBufferJNI".
Definition LOGI (f : string) (a : list Z) : log_line :=
  LogLine ANDROID_LOG_INFO LOG_TAG f a.
Definition LOGE (f : string) (a : list Z) : log_line :=
  LogLine ANDROID_LOG_ERROR LOG_TAG f a.

(** The entry points of [mirror_buffer.h] used by the binding, on the content
    of a [mirror_buffer_t] object.  [mirror_buffer_init] is always called with
    a [NULL] logger.  [mirror_buffer_decrypt] is called as a statement: the
    binding receives nothing from it but the bytes written to [output]. *)
Record mirror_buffer_lib := {
  mirror_buffer_t : Type;
  mirror_buffer_init : list byte → option mirror_buffer_t;
  mirror_buffer_init_aes : mirror_buffer_t → Z → mirror_buffer_t;
  mirror_buffer_decrypt : mirror_buffer_t → list byte → mirror_buffer_t * list byte
}.

(** [(uint64_t)stream_connection_id] *)
Definition uint64_of_jlong (x : Z) : Z := x mod 2 ^ 64.

Section Binding.
Context (lib : mirror_buffer_lib) (env : JNIEnv).

(** The native heap: the live [mirror_buffer_t] objects by address.  A
    [jlong] handle is such an address; [0] is the null pointer. *)
Abbreviation memory := (gmap Z (mirror_buffer_t lib)).

Definition result (A : Type) : Type := A * memory * list log_line.

(** The address the allocator hands out: not null, and not live. *)
Definition fresh_addr (mem : memory) : Z :=
  1 + map_fold (λ p _ top, Z.max p top) 0%Z mem.

(** Modelled from the spec: [mirror_buffer_destroy] of [mirror_buffer.h],
    which is not among the sources.  Destroy zeroes and releases the key and
    the stream state and is idempotent: afterwards no object is live at the
    address, and releasing an address at which no object is live changes
    nothing. *)
Definition mirror_buffer_destroy (mem : memory) (buffer : Z) : memory :=
  delete buffer mem.

(** The input arrays are released with [JNI_ABORT]: nothing is copied back
    to them.  The handle returned is the address of the new object. *)
Definition nativeInit (mem : memory) (aeskey : list byte) : result Z :=
  let key_bytes := aeskey in
  let key_len := GetArrayLength aeskey in
  if bool_decide (key_len ≠ 16%Z) then
    (0%Z, mem, [LOGE "Invalid AES key length: %d (expected 16)" [key_len]])
  else
    match mirror_buffer_init lib key_bytes with
    | None => (0%Z, mem, [LOGE "Failed to initialize mirror_buffer" []])
    | Some obj =>
        let buffer := fresh_addr mem in
        (buffer, <[buffer := obj]> mem,
         [LOGI "Mirror buffer initialized successfully" []])
    end.

Definition nativeInitAes (mem : memory) (handle stream_connection_id : Z)
  : outcome (result unit) :=
  let buffer := handle in
  if bool_decide (buffer = 0%Z) then
    Ret (tt, mem, [LOGE "Invalid mirror_buffer handle" []])
  else
    let sid := uint64_of_jlong stream_connection_id in
    match mem !! buffer with
    | None => Fault
    | Some obj =>
        Ret (tt, <[buffer := mirror_buffer_init_aes lib obj sid]> mem,
             [LOGI "AES initialized for streamConnectionID: %llu" [sid]])
    end.

(** The output array has the size of the input; [output_bytes] is released
    with mode 0, which copies what the library wrote back to the array. *)
Definition nativeDecrypt (mem : memory) (handle : Z) (input : list byte)
  : outcome (result jbyteArray) :=
  let buffer := handle in
  if bool_decide (buffer = 0%Z) then
    Ret (NULL, mem, [LOGE "Invalid mirror_buffer handle" []])
  else
    let input_bytes := input in
    let input_len := length input in
    match NewByteArray env input_len with
    | None => Ret (NULL, mem, [LOGE "Failed to allocate output array" []])
    | Some output =>
        match mem !! buffer with
        | None => Fault
        | Some obj =>
            let '(obj', written) := mirror_buffer_decrypt lib obj input_bytes in
            let output_bytes := SetByteArrayRegion output 0 input_len written in
            Ret (Some output_bytes, <[buffer := obj']> mem, [])
        end
    end.

Definition nativeDestroy (mem : memory) (handle : Z) : outcome (result unit) :=
  let buffer := handle in
  if bool_decide (buffer ≠ 0%Z) then
    Ret (tt, mirror_buffer_destroy mem buffer, [LOGI "Mirror buffer destroyed" []])
  else Ret (tt, mem, []).

(** What the Java caller receives from a call: the returned value, if the
    call returns. *)
Definition returned {A : Type} (r : outcome (result A)) : option A :=
  match r with
  | Ret (v, _, _) => Some v
  | Fault => None
  end.

End Binding.
End MirrorBufferJNI.

(** ** The handshake engine behind [fairplay.h] *)

Module HandshakeEngine.
Import FairPlayJNI.

(** Modelled from the spec: the session states and the failures of the
    engine of [fairplay.c], which is not among the sources. *)
Inductive session_state := Uninitialized | AwaitingHandshake | Ready | Failed.

Inductive ProtocolError := InvalidInput | SequenceError | CryptoFailure | NotReady.

Section Engine.
(** The cryptographic primitives of the exchange, supplied by a standard
    crypto library: the first round (retained material and the response, or a
    primitive failure), the verification and derivation of the second round,
    and the unwrapping of a content key. *)
Context {material session : Type}.
Variable setup_round : list byte → option (material * list byte).
Variable handshake_round : material → list byte → option (session * list byte).
Variable unwrap_key : session → list byte → option (list byte).

(** Modelled from the spec: the engine object of [fairplay.c], which is not
    among the sources.  It holds the session state, the material retained
    from a successful Setup, and the session key material derived by a
    successful Handshake. *)
Record engine := Engine {
  state : session_state;
  setup_material : option material;
  session_material : option session
}.

(** Modelled from the spec: [fairplay_init], which is not among the sources.
    Init leaves the engine ready for Setup. *)
Definition Init : engine := Engine AwaitingHandshake None None.

(** Modelled from the spec: [fairplay_setup], which is not among the sources.
    The request must be exactly 16 bytes, else InvalidInput and the engine is
    not changed; a failure of the round is terminal. *)
Definition Setup (e : engine) (request : list byte)
  : engine * (ProtocolError + list byte) :=
  if bool_decide (length request ≠ 16) then (e, inl InvalidInput)
  else
    match state e with
    | AwaitingHandshake =>
        match setup_round request with
        | Some (m, response) => (Engine AwaitingHandshake (Some m) None, inr response)
        | None => (Engine Failed None None, inl CryptoFailure)
        end
    | _ => (e, inl SequenceError)
    end.

(** Modelled from the spec: [fairplay_handshake], which is not among the
    sources.  Calling it before a successful Setup is a SequenceError,
    whatever the input; a verification failure is terminal; success makes
    the engine Ready. *)
Definition Handshake (e : engine) (request : list byte)
  : engine * (ProtocolError + list byte) :=
  match state e, setup_material e with
  | AwaitingHandshake, Some m =>
      if bool_decide (length request ≠ 164) then (Engine Failed None None, inl InvalidInput)
      else
        match handshake_round m request with
        | Some (s, response) => (Engine Ready (Some m) (Some s), inr response)
        | None => (Engine Failed None None, inl CryptoFailure)
        end
  | _, _ => (e, inl SequenceError)
  end.

(** Modelled from the spec: [fairplay_decrypt], which is not among the
    sources.  Only valid in the Ready state (NotReady otherwise); it never
    changes the state. *)
Definition DecryptKey (e : engine) (wrapped_key : list byte)
  : engine * (ProtocolError + list byte) :=
  match state e, session_material e with
  | Ready, Some s =>
      if bool_decide (length wrapped_key ≠ 72) then (e, inl InvalidInput)
      else
        match unwrap_key s wrapped_key with
        | Some content_key => (e, inr content_key)
        | None => (e, inl CryptoFailure)
        end
  | _, _ => (e, inl NotReady)
  end.

(** The calls of a session, and the engine after a history of calls. *)
Inductive call :=
  | CallSetup (request : list byte)
  | CallHandshake (request : list byte)
  | CallDecryptKey (wrapped_key : list byte).

Definition step (e : engine) (c : call) : engine * (ProtocolError + list byte) :=
  match c with
  | CallSetup r => Setup e r
  | CallHandshake r => Handshake e r
  | CallDecryptKey k => DecryptKey e k
  end.

Definition engine_after (e : engine) (history : list call) : engine :=
  foldl (λ e c, (step e c).1) e history.

(** Whether call [c], made on engine [e], is a Setup (a Handshake) that
    succeeds. *)
Definition setup_succeeds (e : engine) (c : call) : bool :=
  match c with
  | CallSetup r => if (Setup e r).2 is inr _ then true else false
  | _ => false
  end.

Definition handshake_succeeds (e : engine) (c : call) : bool :=
  match c with
  | CallHandshake r => if (Handshake e r).2 is inr _ then true else false
  | _ => false
  end.

(** No call of the history satisfies [ok] at the point where it is made. *)
Fixpoint never (ok : engine → call → bool) (e : engine) (history : list call)
  : bool :=
  match history with
  | [] => true
  | c :: rest => negb (ok e c) && never ok (step e c).1 rest
  end.

(** Modelled from the spec: the C face of the engine, as [fairplay.h]
    declares it to the binding: [0] and the bytes of the result, or the code
    of the failure and nothing written. *)
Variable error_code : ProtocolError → Z.

Definition to_c (r : engine * (ProtocolError + list byte))
  : engine * Z * list byte :=
  match r with
  | (e, inr out) => (e, 0%Z, out)
  | (e, inl err) => (e, error_code err, [])
  end.

Definition lib : fairplay_lib := {|
  fairplay_t := engine;
  fairplay_init := λ _, Some Init;
  fairplay_setup := λ e req, to_c (Setup e req);
  fairplay_handshake := λ e req, to_c (Handshake e req);
  fairplay_decrypt := λ e key, to_c (DecryptKey e key)
|}.

End Engine.
End HandshakeEngine.

(** ** The stream decryptor behind [mirror_buffer.h] *)

Module StreamDecryptor.
Import MirrorBufferJNI.

(** Modelled from the spec: the failures of the decryptor of
    [mirror_buffer.c], which is not among the sources. *)
Inductive error := InvalidKeyLength | NotInitialized.

Definition byte_xor (a b : byte) : byte :=
  default x00 (Byte.of_N (N.lxor (Byte.to_N a) (Byte.to_N b))).

Section Cipher.
(** The primitives, supplied by a standard crypto library: the block cipher
    under a key, the derivation of the stream state from the key and the
    64-bit stream-connection identifier, and the counter block of the
    [i]-th 16-byte block of a stream. *)
Variable block_cipher : list byte → list byte → list byte.
Variable derive_nonce : list byte → Z → list byte.
Variable counter_block : list byte → nat → list byte.

(** Modelled from the spec: the [mirror_buffer_t] object of
    [mirror_buffer.c], which is not among the sources: the content key, the
    stream state derived at InitStream (absent before), and the count of
    bytes decrypted since InitStream. *)
Record decryptor := Decryptor {
  content_key : list byte;
  stream_nonce_state : option (list byte);
  byte_counter : nat
}.

(** Modelled from the spec: [mirror_buffer_init], which is not among the
    sources.  New stores the key and establishes no stream context. *)
Definition New (key : list byte) : error + decryptor :=
  if bool_decide (length key = 16) then inr (Decryptor key None 0)
  else inl InvalidKeyLength.

(** Modelled from the spec: [mirror_buffer_init_aes], which is not among the
    sources.  InitStream derives the stream state from the key and the
    identifier and resets the byte counter to zero. *)
Definition InitStream (d : decryptor) (stream_connection_id : Z) : decryptor :=
  Decryptor (content_key d)
            (Some (derive_nonce (content_key d) stream_connection_id)) 0.

(** Modelled from the spec: counter mode, which turns the block cipher into
    a keystream indexed by the byte offset.  The keystream byte at offset
    [pos] of the stream is byte [pos mod 16] of the encryption of the counter
    block of block [pos / 16]; [ctr_xor] applies the keystream from [pos]
    on. *)
Definition keystream_byte (key nonce : list byte) (pos : nat) : byte :=
  default x00 (block_cipher key (counter_block nonce (pos / 16)) !! (pos mod 16)).

Fixpoint ctr_xor (key nonce : list byte) (pos : nat) (input : list byte)
  : list byte :=
  match input with
  | [] => []
  | b :: rest =>
      byte_xor b (keystream_byte key nonce pos) :: ctr_xor key nonce (S pos) rest
  end.

(** Modelled from the spec: [mirror_buffer_decrypt], which is not among the
    sources.  Decrypt works in counter mode at the current byte offset and
    then advances the offset by the input length; before InitStream it fails
    with NotInitialized. *)
Definition Decrypt (d : decryptor) (input : list byte)
  : decryptor * (error + list byte) :=
  match stream_nonce_state d with
  | None => (d, inl NotInitialized)
  | Some nonce =>
      (Decryptor (content_key d) (Some nonce) (byte_counter d + length input),
       inr (ctr_xor (content_key d) nonce (byte_counter d) input))
  end.

(** Modelled from the spec: the C face of the decryptor, as
    [mirror_buffer.h] declares it to the binding.  A Decrypt that fails has
    written nothing. *)
Definition lib : mirror_buffer_lib := {|
  mirror_buffer_t := decryptor;
  mirror_buffer_init := λ key, if New key is inr d then Some d else None;
  mirror_buffer_init_aes := InitStream;
  mirror_buffer_decrypt := λ d input,
    match Decrypt d input with
    | (d', inr output) => (d', output)
    | (d', inl _) => (d', [])
    end
|}.

End Cipher.
End StreamDecryptor.

(** ** [utils.h] *)

Module Utils.
Import Strings.Ascii.

(** [INT_MAX] of the 32-bit [int] of the Android ABIs. *)
Definition INT_MAX : Z := 2 ^ 31 - 1.

Definition NUL : ascii := Ascii.zero.

(** The C heap as [utils_hex_to_string] sees it: whether [malloc] finds a
    block of a given size, and the indeterminate content of a new block. *)
Record allocator := { malloc_ok : nat → bool; garbage : nat → ascii }.

(** [malloc(size)]: [NULL], or a block of [size] chars. *)
Definition malloc (a : allocator) (size : nat) : option (list ascii) :=
  if malloc_ok a size then Some (garbage a <$> seq 0 size) else None.

Definition hex_digits : list ascii :=
  ["0"; "1"; "2"; "3"; "4"; "5"; "6"; "7";
   "8"; "9"; "a"; "b"; "c"; "d"; "e"; "f"]%char.

Definition hex_digit (n : N) : ascii := default NUL (hex_digits !! N.to_nat n).

(** [sprintf(p, "%02x", b)] for an [unsigned char] [b]: the chars it stores
    at [p], two lowercase hex digits and the terminating NUL. *)
Definition sprintf_02x (b : byte) : list ascii :=
  let v := Byte.to_N b in
  [hex_digit (v / 16); hex_digit (v mod 16); NUL].

(** Storing chars into a block from offset [off] on; a store outside the
    block is a fault. *)
Fixpoint store (str : list ascii) (off : nat) (cs : list ascii)
  : outcome (list ascii) :=
  match cs with
  | [] => Ret str
  | c :: rest =>
      if bool_decide (off < length str)
      then store (<[off := c]> str) (S off) rest
      else Fault
  end.

(** [for (; i < len; i++) sprintf(str + i * 2, "%02x", data[i]);] with
    [count] rounds to go; reading [data] outside its bytes is a fault. *)
Fixpoint hex_loop (data : list byte) (str : list ascii) (i count : nat)
  : outcome (list ascii) :=
  match count with
  | 0 => Ret str
  | S count' =>
      match data !! i with
      | None => Fault
      | Some b =>
          match store str (i * 2) (sprintf_02x b) with
          | Ret str' => hex_loop data str' (S i) count'
          | Fault => Fault
          end
      end
  end.

(** [utils_hex_to_string(data, len)] for [len >= 0]: the block returned, or
    [NULL].  The size [len * 2 + 1] is computed in [int]; its overflow is a
    fault. *)
Definition utils_hex_to_string (a : allocator) (data : list byte) (len : nat)
  : outcome (option (list ascii)) :=
  if bool_decide (Z.of_nat len * 2 + 1 ≤ INT_MAX)%Z then
    match malloc a (len * 2 + 1) with
    | None => Ret None
    | Some str =>
        match hex_loop data str 0 len with
        | Ret str' =>
            match store str' (len * 2) [NUL] with
            | Ret str'' => Ret (Some str'')
            | Fault => Fault
            end
        | Fault => Fault
        end
    end
  else Fault.

(** [strlen]: the number of chars before the first NUL of a block. *)
Fixpoint strlen (str : list ascii) : nat :=
  match str with
  | [] => 0
  | c :: rest => if bool_decide (c = NUL) then 0 else S (strlen rest)
  end.

(** The hex string of a byte sequence, as the header describes the result:
    two lowercase hex digits for each byte, in order. *)
Definition hex_string (bytes : list byte) : list ascii :=
  bytes ≫= (λ b, [hex_digit (Byte.to_N b / 16); hex_digit (Byte.to_N b mod 16)]).

(** Reading a hex string back. *)
Definition hex_value (c : ascii) : option N :=
  N.of_nat <$> (fst <$> list_find (λ d, d = c) hex_digits).

Fixpoint unhex (cs : list ascii) : option (list byte) :=
  match cs with
  | [] => Some []
  | hi :: lo :: rest =>
      h ← hex_value hi;
      l ← hex_value lo;
      b ← Byte.of_N (h * 16 + l);
      bs ← unhex rest;
      Some (b :: bs)
  | _ => None
  end.

End Utils.

(** ** Concrete instances on which the bindings can be run *)

Module Sample.

Definition env : JNIEnv := {| heap_has_room := λ _, true |}.

(** An environment whose Java heap is exhausted. *)
Definition full_env : JNIEnv := {| heap_has_room := λ _, false |}.

Definition error_code (e : HandshakeEngine.ProtocolError) : Z :=
  match e with
  | HandshakeEngine.InvalidInput => -1
  | HandshakeEngine.SequenceError => -2
  | HandshakeEngine.CryptoFailure => -3
  | HandshakeEngine.NotReady => -4
  end.

(** A stand-in exchange: the first round keeps the request, the second
    accepts a proof that starts with the retained request, and a key is
    unwrapped by taking its first 16 bytes. *)
Definition setup_round (request : list byte) : option (list byte * list byte) :=
  Some (request, replicate 142 Byte.x01).

Definition handshake_round (m request : list byte)
  : option (list byte * list byte) :=
  if bool_decide (take 16 request = m) then Some (m, replicate 32 Byte.x02)
  else None.

Definition unwrap_key (s wrapped_key : list byte) : option (list byte) :=
  Some (take 16 wrapped_key).

Definition fairplay : FairPlayJNI.fairplay_lib :=
  HandshakeEngine.lib setup_round handshake_round unwrap_key error_code.

(** A library for which [fairplay_init] finds no memory. *)
Definition starved_fairplay : FairPlayJNI.fairplay_lib := {|
  FairPlayJNI.fairplay_t := unit;
  FairPlayJNI.fairplay_init := λ _, None;
  FairPlayJNI.fairplay_setup := λ fp _, (fp, (-1)%Z, []);
  FairPlayJNI.fairplay_handshake := λ fp _, (fp, (-1)%Z, []);
  FairPlayJNI.fairplay_decrypt := λ fp _, (fp, (-1)%Z, [])
|}.

Definition engine_after (history : list HandshakeEngine.call)
  : HandshakeEngine.engine :=
  HandshakeEngine.engine_after setup_round handshake_round unwrap_key
    HandshakeEngine.Init history.

(** A history without a successful Setup, and one with a successful Setup
    and no Handshake. *)
Definition early : list HandshakeEngine.call :=
  [HandshakeEngine.CallDecryptKey (replicate 72 x00);
   HandshakeEngine.CallSetup (replicate 3 x00)].

Definition half : list HandshakeEngine.call :=
  [HandshakeEngine.CallSetup (replicate 16 x00)].

(** A history that ends with the engine Ready. *)
Definition ready : list HandshakeEngine.call :=
  [HandshakeEngine.CallSetup (replicate 16 x00);
   HandshakeEngine.CallHandshake (replicate 164 x00)].

(** A stand-in cipher: the counter block is the nonce followed by the block
    index, and the block cipher xors key and block. *)
Definition block_cipher (key block : list byte) : list byte :=
  zip_with StreamDecryptor.byte_xor key (drop 1 block ++ take 1 block).

Definition derive_nonce (key : list byte) (sid : Z) : list byte :=
  replicate 15 (default x00 (Byte.of_N (Z.to_N (sid mod 256)))).

Definition counter_block (nonce : list byte) (i : nat) : list byte :=
  nonce ++ [default x00 (Byte.of_N (N.of_nat (i mod 256)))].

Definition mirror_buffer : MirrorBufferJNI.mirror_buffer_lib :=
  StreamDecryptor.lib block_cipher derive_nonce counter_block.

Definition mirror_buffer_heap : Type :=
  gmap Z (MirrorBufferJNI.mirror_buffer_t mirror_buffer).

Definition key16 : list byte :=
  [Byte.x10; Byte.x11; Byte.x12; Byte.x13; Byte.x14; Byte.x15; Byte.x16; Byte.x17;
   Byte.x18; Byte.x19; Byte.x1a; Byte.x1b; Byte.x1c; Byte.x1d; Byte.x1e; Byte.x1f].

Definition zeros (n : nat) : list byte := replicate n x00.

(** A decryptor as New leaves it, and the same after InitStream(7); the
    native heap holding the one and the other at address 1. *)
Definition unbound : StreamDecryptor.decryptor :=
  StreamDecryptor.Decryptor key16 None 0.

Definition bound : StreamDecryptor.decryptor :=
  StreamDecryptor.InitStream derive_nonce unbound 7.

Definition mem1 : mirror_buffer_heap := {[ 1%Z := unbound ]}.

Definition mem2 : mirror_buffer_heap := {[ 1%Z := bound ]}.

(** The first 20 bytes of the keystream of [bound], and the heap after they
    have been used. *)
Definition plain20 : list byte :=
  StreamDecryptor.ctr_xor block_cipher counter_block key16
    (derive_nonce key16 7) 0 (zeros 20).

Definition mem3 : mirror_buffer_heap :=
  {[ 1%Z := StreamDecryptor.Decryptor key16 (Some (derive_nonce key16 7)) 20 ]}.

(** A heap with a bound decryptor at address 1 and an unbound one at 2. *)
Definition two_streams : mirror_buffer_heap :=
  <[ 2%Z := unbound ]> {[ 1%Z := bound ]}.

(** A C heap with room, whose new blocks are filled with ['#'], and one
    without room. *)
Definition allocator : Utils.allocator :=
  {| Utils.malloc_ok := λ _, true;
     Utils.garbage := λ _, Strings.Ascii.ascii_of_nat 35 |}.

Definition full_allocator : Utils.allocator :=
  {| Utils.malloc_ok := λ _, false;
     Utils.garbage := λ _, Strings.Ascii.ascii_of_nat 35 |}.

End Sample.

(** ** Java arrays *)

Lemma SetByteArrayRegion_length a start len buf :
  length (SetByteArrayRegion a start len buf) = length a.
Proof. unfold SetByteArrayRegion. by rewrite length_imap. Qed.

Lemma NewByteArray_length env n a : NewByteArray env n = Some a → length a = n.
Proof.
  unfold NewByteArray. destruct (heap_has_room env n); intros [= <-].
  apply length_replicate.
Qed.

Lemma GetArrayLength_ne (a : list byte) (n : nat) :
  GetArrayLength a ≠ Z.of_nat n ↔ length a ≠ n.
Proof. unfold GetArrayLength. lia. Qed.

(** Writing [len] bytes over a whole array of length [len] leaves exactly
    the bytes written. *)
Lemma SetByteArrayRegion_all a buf :
  length a = length buf → SetByteArrayRegion a 0 (length buf) buf = buf.
Proof.
  intros Hlen. apply list_eq. intros i.
  unfold SetByteArrayRegion. rewrite list_lookup_imap.
  destruct (a !! i) as [x|] eqn:Ha; simpl.
  - apply lookup_lt_Some in Ha.
    rewrite bool_decide_eq_true_2 by lia.
    rewrite Nat.sub_0_r.
    destruct (lookup_lt_is_Some_2 buf i) as [y Hy]; [lia|]. by rewrite Hy.
  - apply lookup_ge_None in Ha. symmetry. apply lookup_ge_None. lia.
Qed.

(** Case analysis along the branches of a binding. *)
Ltac branches :=
  repeat first
    [ progress simplify_eq/=
    | case_bool_decide
    | case_match ].

(** ** The FairPlay binding, for any implementation of [fairplay.h] *)

Section FairPlayBinding.
Import FairPlayJNI.
Context (lib : fairplay_lib) (env : JNIEnv).
Implicit Types (fp : fairplay_t lib) (g : option (fairplay_t lib)).

Lemma nativeSetup_bad_length fp request :
  length request ≠ 16 →
  nativeSetup lib env (Some fp) request =
    Ret (NULL, Some fp,
         [LOGE "Invalid request length: %d (expected 16)"
               [Z.of_nat (length request)]]).
Proof.
  intros Hlen. unfold nativeSetup.
  rewrite bool_decide_eq_true_2; [done|]. by apply (GetArrayLength_ne _ 16).
Qed.

Lemma nativeSetup_success g request response g' log :
  nativeSetup lib env g request = Ret (Some response, g', log) →
  length request = 16 ∧ length response = 142.
Proof.
  unfold nativeSetup. intros H. branches.
  split.
  - destruct (decide (length request = 16)) as [|Hne]; [done|].
    by apply (GetArrayLength_ne _ 16) in Hne.
  - rewrite SetByteArrayRegion_length. by eapply NewByteArray_length.
Qed.

(** The binding checks the length of a Handshake request and nothing else:
    whether a 164-byte request is accepted is for [fairplay_handshake] alone
    to say. *)
Lemma nativeHandshake_defers_to_library fp request fp' ret res :
  length request = 164 →
  fairplay_handshake lib fp request = (fp', ret, res) →
  heap_has_room env 32 = true →
  nativeHandshake lib env (Some fp) request =
    if bool_decide (ret ≠ 0%Z)
    then Ret (NULL, Some fp', [LOGE "FairPlay handshake failed: %d" [ret]])
    else Ret (Some (SetByteArrayRegion (replicate 32 x00) 0 32 res), Some fp',
              [LOGI "FairPlay handshake successful" []]).
Proof.
  intros Hlen Hlib Hroom. unfold nativeHandshake, GetArrayLength, NewByteArray.
  rewrite Hlen, Hroom. simpl.
  unfold GetByteArrayRegion. rewrite drop_0, <- Hlen, firstn_all, Hlib.
  by case_bool_decide.
Qed.

End FairPlayBinding.

(** A session as a caller drives it: Init, Setup, Handshake, DecryptKey. *)
Example session_scenario :
  FairPlayJNI.nativeInit Sample.fairplay None =
    (0%Z, Some HandshakeEngine.Init,
     [FairPlayJNI.LOGI "FairPlay initialized successfully" []]) ∧
  FairPlayJNI.nativeSetup Sample.fairplay Sample.env
      (Some HandshakeEngine.Init) (Sample.zeros 16) =
    Ret (Some (replicate 142 Byte.x01),
         Some (Sample.engine_after Sample.half),
         [FairPlayJNI.LOGI "FairPlay setup successful" []]) ∧
  FairPlayJNI.nativeHandshake Sample.fairplay Sample.env
      (Some (Sample.engine_after Sample.half)) (Sample.zeros 164) =
    Ret (Some (replicate 32 Byte.x02),
         Some (Sample.engine_after Sample.ready),
         [FairPlayJNI.LOGI "FairPlay handshake successful" []]) ∧
  FairPlayJNI.returned Sample.fairplay
    (FairPlayJNI.nativeDecrypt Sample.fairplay Sample.env
       (Some (Sample.engine_after Sample.ready)) (Sample.zeros 72)) =
    Some (Some (Sample.zeros 16)).
Proof. repeat split; vm_compute; reflexivity. Qed.

(** Without room on the Java heap, Setup hands [NULL] to
    [SetByteArrayRegion], while the mirror-buffer Decrypt checks for it. *)
Example exhausted_heap :
  FairPlayJNI.nativeSetup Sample.fairplay Sample.full_env
      (Some HandshakeEngine.Init) (Sample.zeros 16) = Fault ∧
  MirrorBufferJNI.nativeDecrypt Sample.mirror_buffer Sample.full_env
      Sample.mem2 1 (Sample.zeros 4) =
    Ret (NULL, Sample.mem2,
         [MirrorBufferJNI.LOGE "Failed to allocate output array" []]).
Proof. split; vm_compute; reflexivity. Qed.

(** C2: on an initialized engine, whatever state it is in, a Setup that
    succeeds was given exactly 16 bytes and returns a response of exactly
    142 bytes; when the library accepts a 16-byte request and there is room
    for the response, Setup does succeed; and a Setup with a request of any
    other length fails on the length check: it returns [NULL], logs the
    invalid length, and leaves the engine as it was, whatever the library's
    [fairplay_setup] would do (it is not reached). *)
Theorem setup_16_in_142_out
    (lib : FairPlayJNI.fairplay_lib) (env : JNIEnv)
    (fp : FairPlayJNI.fairplay_t lib) (request bad : list byte) :
  (∀ response g' log,
     FairPlayJNI.nativeSetup lib env (Some fp) request =
       Ret (Some response, g', log) →
     length request = 16 ∧ length response = 142) ∧
  (length request = 16 →
   (FairPlayJNI.fairplay_setup lib fp request).1.2 = 0%Z →
   heap_has_room env 142 = true →
   ∃ response,
     FairPlayJNI.nativeSetup lib env (Some fp) request =
       Ret (Some response, Some (FairPlayJNI.fairplay_setup lib fp request).1.1,
            [FairPlayJNI.LOGI "FairPlay setup successful" []]) ∧
     length response = 142) ∧
  (length bad ≠ 16 →
   FairPlayJNI.nativeSetup lib env (Some fp) bad =
     Ret (NULL, Some fp,
          [FairPlayJNI.LOGE "Invalid request length: %d (expected 16)"
                            [Z.of_nat (length bad)]])).
Proof.
  split; [|split].
  - intros response g' log Hok. by apply (nativeSetup_success _ _ _ _ _ _ _ Hok).
  - intros Hlen Hret Hroom.
    destruct (FairPlayJNI.fairplay_setup lib fp request) as [[fp' ret] res] eqn:E.
    simpl in Hret. subst ret.
    exists (SetByteArrayRegion (replicate 142 x00) 0 142 res). split.
    + unfold FairPlayJNI.nativeSetup, GetArrayLength, NewByteArray.
      rewrite Hlen, Hroom. simpl.
      unfold GetByteArrayRegion. rewrite drop_0, <- Hlen, firstn_all, E.
      by case_bool_decide.
    + by rewrite SetByteArrayRegion_length, length_replicate.
  - apply nativeSetup_bad_length.
Qed.

Lemma setup_16_in_142_out_witness :
  (length (Sample.zeros 16) = 16 ∧ length (replicate 142 Byte.x01) = 142) ∧
  (∃ response,
     FairPlayJNI.nativeSetup Sample.fairplay Sample.env
         (Some HandshakeEngine.Init) (Sample.zeros 16) =
       Ret (Some response,
            Some (FairPlayJNI.fairplay_setup Sample.fairplay
                    HandshakeEngine.Init (Sample.zeros 16)).1.1,
            [FairPlayJNI.LOGI "FairPlay setup successful" []]) ∧
     length response = 142) ∧
  FairPlayJNI.nativeSetup Sample.fairplay Sample.env
      (Some HandshakeEngine.Init) (Sample.zeros 15) =
    Ret (NULL, Some HandshakeEngine.Init,
         [FairPlayJNI.LOGE "Invalid request length: %d (expected 16)" [15%Z]]).
Proof.
  destruct (setup_16_in_142_out Sample.fairplay Sample.env HandshakeEngine.Init
              (Sample.zeros 16) (Sample.zeros 15)) as (Hok & Hdoes & Hbad).
  split; [|split].
  - apply (Hok (replicate 142 Byte.x01)
             (Some (HandshakeEngine.Engine HandshakeEngine.AwaitingHandshake
                      (Some (Sample.zeros 16)) None))
             [FairPlayJNI.LOGI "FairPlay setup successful" []]).
    vm_compute. reflexivity.
  - apply Hdoes; vm_compute; reflexivity.
  - apply Hbad. vm_compute. lia.
Defined.

(** C8: on an initialized engine, a Setup with a buffer that is not 16 bytes
    long fails on the length check and leaves the engine unchanged, so the
    Setup with a 16-byte buffer that follows it behaves exactly as it would
    have without the failed call (and succeeds if it would have). *)
Theorem setup_bad_length_keeps_engine
    (lib : FairPlayJNI.fairplay_lib) (env : JNIEnv)
    (fp : FairPlayJNI.fairplay_t lib) (bad good : list byte) :
  length bad ≠ 16 →
  length good = 16 →
  FairPlayJNI.nativeSetup lib env (Some fp) bad =
    Ret (NULL, Some fp,
         [FairPlayJNI.LOGE "Invalid request length: %d (expected 16)"
                           [Z.of_nat (length bad)]]) ∧
  FairPlayJNI.and_then lib (FairPlayJNI.nativeSetup lib env (Some fp) bad)
      (λ g, FairPlayJNI.nativeSetup lib env g good) =
    FairPlayJNI.nativeSetup lib env (Some fp) good.
Proof.
  intros Hbad _. rewrite nativeSetup_bad_length by done. done.
Qed.

Lemma setup_bad_length_keeps_engine_witness :
  length (Sample.zeros 15) ≠ 16 ∧
  length (Sample.zeros 16) = 16 ∧
  FairPlayJNI.and_then Sample.fairplay
      (FairPlayJNI.nativeSetup Sample.fairplay Sample.env
         (Some HandshakeEngine.Init) (Sample.zeros 15))
      (λ g, FairPlayJNI.nativeSetup Sample.fairplay Sample.env g (Sample.zeros 16)) =
    Ret (Some (replicate 142 Byte.x01),
         Some (HandshakeEngine.Engine HandshakeEngine.AwaitingHandshake
                 (Some (Sample.zeros 16)) None),
         [FairPlayJNI.LOGI "FairPlay setup successful" []]).
Proof.
  split; [vm_compute; lia|]. split; [reflexivity|].
  etrans.
  - apply (setup_bad_length_keeps_engine Sample.fairplay Sample.env
             HandshakeEngine.Init (Sample.zeros 15) (Sample.zeros 16));
      [vm_compute; lia | reflexivity].
  - vm_compute. reflexivity.
Defined.



(** ** The order of the calls of a session *)

Section Sequencing.
Import HandshakeEngine.
Context {material session : Type}.
Context (setup_round : list byte → option (material * list byte)).
Context (handshake_round : material → list byte → option (session * list byte)).
Context (unwrap_key : session → list byte → option (list byte)).
Context (error_code : ProtocolError → Z) (env : JNIEnv).

Local Abbreviation engine_lib :=
  (lib setup_round handshake_round unwrap_key error_code).
Local Abbreviation engine := (@engine material session).
Local Abbreviation step := (step setup_round handshake_round unwrap_key).
Local Abbreviation engine_after := (engine_after setup_round handshake_round unwrap_key).
Local Abbreviation setup_succeeds := (@setup_succeeds material session setup_round).
Local Abbreviation handshake_succeeds :=
  (@handshake_succeeds material session handshake_round).
Local Abbreviation never := (never setup_round handshake_round unwrap_key).

(** A call that is not a successful Setup leaves an engine without retained
    Setup material without it. *)
Lemma step_keeps_no_material (e : engine) c :
  setup_material e = None → setup_succeeds e c = false →
  setup_material (step e c).1 = None.
Proof.
  intros He Hc. destruct e as [st m s]; simpl in He; subst m.
  destruct c as [r|r|k]; simpl in *.
  - unfold Setup in *; simpl in *. branches; done.
  - unfold Handshake; simpl. by destruct st.
  - unfold DecryptKey; simpl. branches; done.
Qed.

Lemma no_setup_no_material (e : engine) history :
  setup_material e = None → never setup_succeeds e history = true →
  setup_material (engine_after e history) = None.
Proof.
  revert e. induction history as [|c rest IH]; intros e He Hn; [done|].
  simpl in Hn. apply andb_true_iff in Hn as [Hc Hn].
  apply negb_true_iff in Hc. simpl.
  apply IH; [by apply step_keeps_no_material | done].
Qed.

(** A call that is not a successful Handshake does not make an engine
    Ready. *)
Lemma step_keeps_not_ready (e : engine) c :
  state e ≠ Ready → handshake_succeeds e c = false →
  state (step e c).1 ≠ Ready.
Proof.
  intros He Hc. destruct e as [st m s]; simpl in He.
  destruct c as [r|r|k]; simpl in *.
  - unfold Setup; simpl. branches; done.
  - unfold Handshake in *; simpl in *. branches; done.
  - unfold DecryptKey; simpl. branches; done.
Qed.

Lemma no_handshake_not_ready (e : engine) history :
  state e ≠ Ready → never handshake_succeeds e history = true →
  state (engine_after e history) ≠ Ready.
Proof.
  revert e. induction history as [|c rest IH]; intros e He Hn; [done|].
  simpl in Hn. apply andb_true_iff in Hn as [Hc Hn].
  apply negb_true_iff in Hc. simpl.
  apply IH; [by apply step_keeps_not_ready | done].
Qed.

Lemma Handshake_without_material (e : engine) request :
  setup_material e = None →
  Handshake handshake_round e request = (e, inl SequenceError).
Proof. intros He. unfold Handshake. rewrite He. by destruct (state e). Qed.

Lemma DecryptKey_not_ready (e : engine) wrapped_key :
  state e ≠ Ready →
  DecryptKey unwrap_key e wrapped_key = (e, inl NotReady).
Proof. intros He. unfold DecryptKey. by destruct (state e). Qed.

(** C3: on an initialized engine, a Handshake made before any Setup has
    succeeded fails with SequenceError whatever its 164 bytes are, and a
    DecryptKey made before any Handshake has succeeded fails with NotReady:
    the binding returns [NULL], reports the library's failure code, and the
    engine is left as it was.  A DecryptKey made that early fails for a key of
    any length. *)
Theorem handshake_before_setup_fails
    (before_setup before_handshake : list call)
    (request wrapped_key any_key : list byte) :
  (∀ err, error_code err ≠ 0%Z) →
  never setup_succeeds Init before_setup = true →
  never handshake_succeeds Init before_handshake = true →
  length request = 164 →
  length wrapped_key = 72 →
  FairPlayJNI.nativeHandshake engine_lib env
      (Some (engine_after Init before_setup)) request =
    Ret (NULL, Some (engine_after Init before_setup),
         [FairPlayJNI.LOGE "FairPlay handshake failed: %d"
                           [error_code SequenceError]]) ∧
  FairPlayJNI.nativeDecrypt engine_lib env
      (Some (engine_after Init before_handshake)) wrapped_key =
    Ret (NULL, Some (engine_after Init before_handshake),
         [FairPlayJNI.LOGE "FairPlay decrypt failed: %d"
                           [error_code NotReady]]) ∧
  ∃ log, FairPlayJNI.nativeDecrypt engine_lib env
           (Some (engine_after Init before_handshake)) any_key =
         Ret (NULL, Some (engine_after Init before_handshake), log).
Proof.
  intros Hcode Hs Hh Hreq Hkey.
  assert (setup_material (engine_after Init before_setup) = None) as Hm
    by (by apply no_setup_no_material).
  assert (state (engine_after Init before_handshake) ≠ Ready)
    as Hr by (by apply no_handshake_not_ready).
  split; [|split].
  - unfold FairPlayJNI.nativeHandshake, GetArrayLength, GetByteArrayRegion.
    rewrite Hreq. rewrite bool_decide_eq_false_2 by (intros H; by apply H).
    simpl. rewrite Handshake_without_material by done. simpl.
    by rewrite bool_decide_eq_true_2.
  - unfold FairPlayJNI.nativeDecrypt, GetArrayLength, GetByteArrayRegion.
    rewrite Hkey. rewrite bool_decide_eq_false_2 by (intros H; by apply H).
    simpl. rewrite DecryptKey_not_ready by done. simpl.
    by rewrite bool_decide_eq_true_2.
  - unfold FairPlayJNI.nativeDecrypt.
    case_bool_decide; [by eexists|].
    simpl. rewrite DecryptKey_not_ready by done. simpl.
    rewrite bool_decide_eq_true_2 by done. by eexists.
Qed.

End Sequencing.

Lemma handshake_before_setup_fails_witness :
  FairPlayJNI.nativeHandshake Sample.fairplay Sample.env
      (Some (Sample.engine_after Sample.early)) (Sample.zeros 164) =
    Ret (NULL, Some (Sample.engine_after Sample.early),
         [FairPlayJNI.LOGE "FairPlay handshake failed: %d" [(-2)%Z]]) ∧
  FairPlayJNI.nativeDecrypt Sample.fairplay Sample.env
      (Some (Sample.engine_after Sample.half)) (Sample.zeros 72) =
    Ret (NULL, Some (Sample.engine_after Sample.half),
         [FairPlayJNI.LOGE "FairPlay decrypt failed: %d" [(-4)%Z]]) ∧
  ∃ log, FairPlayJNI.nativeDecrypt Sample.fairplay Sample.env
           (Some (Sample.engine_after Sample.half)) (Sample.zeros 5) =
         Ret (NULL, Some (Sample.engine_after Sample.half), log).
Proof.
  apply (handshake_before_setup_fails Sample.setup_round Sample.handshake_round
           Sample.unwrap_key Sample.error_code Sample.env
           Sample.early Sample.half
           (Sample.zeros 164) (Sample.zeros 72) (Sample.zeros 5)).
  - intros []; vm_compute; discriminate.
  - vm_compute. reflexivity.
  - vm_compute. reflexivity.
  - reflexivity.
  - reflexivity.
Defined.


(** ** The mirror-buffer binding, for any implementation of [mirror_buffer.h] *)

Section MirrorBufferBinding.
Import MirrorBufferJNI.
Context (lib : mirror_buffer_lib) (env : JNIEnv).
Implicit Types (mem : gmap Z (mirror_buffer_t lib)) (obj : mirror_buffer_t lib).

Lemma fresh_addr_spec mem :
  (0 < fresh_addr lib mem)%Z ∧ mem !! fresh_addr lib mem = None.
Proof.
  unfold fresh_addr.
  set (top := map_fold _ _ _).
  assert (0 ≤ top ∧ ∀ p, is_Some (mem !! p) → p ≤ top)%Z as [Hpos Hmax].
  { subst top.
    apply (map_fold_weak_ind
             (λ r (m : gmap Z (mirror_buffer_t lib)),
                (0 ≤ r ∧ ∀ p, is_Some (m !! p) → p ≤ r)%Z)).
    - split; [lia|]. intros p [x Hx]. by rewrite lookup_empty in Hx.
    - intros i x m r _ [Hr Hm]. split; [lia|].
      intros p Hp. destruct (decide (i = p)) as [->|Hne]; [lia|].
      rewrite lookup_insert_ne in Hp by done. specialize (Hm p Hp). lia. }
  split; [lia|].
  destruct (mem !! (1 + top)%Z) eqn:E; [|done].
  specialize (Hmax (1 + top)%Z (mk_is_Some _ _ E)). lia.
Qed.

Lemma nativeInit_handle mem aeskey handle mem' log :
  nativeInit lib mem aeskey = (handle, mem', log) →
  handle ≠ 0%Z →
  length aeskey = 16 ∧
  ∃ obj, mirror_buffer_init lib aeskey = Some obj ∧
         mem !! handle = None ∧ mem' = <[handle := obj]> mem.
Proof.
  unfold nativeInit. intros H Hne.
  case_bool_decide as Hlen; [by simplify_eq|].
  destruct (mirror_buffer_init lib aeskey) as [obj|] eqn:Hinit; [|by simplify_eq].
  simplify_eq. split.
  - destruct (decide (length aeskey = 16)) as [|Hn]; [done|].
    by apply (GetArrayLength_ne _ 16) in Hn.
  - exists obj. split; [done|]. split; [|done]. apply fresh_addr_spec.
Qed.

Lemma nativeInitAes_live mem handle sid obj :
  handle ≠ 0%Z → mem !! handle = Some obj →
  nativeInitAes lib mem handle sid =
    Ret (tt, <[handle := mirror_buffer_init_aes lib obj (uint64_of_jlong sid)]> mem,
         [LOGI "AES initialized for streamConnectionID: %llu" [uint64_of_jlong sid]]).
Proof.
  intros Hne Hobj. unfold nativeInitAes.
  rewrite bool_decide_eq_false_2 by done. by rewrite Hobj.
Qed.

Lemma nativeDecrypt_live mem handle obj input :
  handle ≠ 0%Z → mem !! handle = Some obj →
  heap_has_room env (length input) = true →
  nativeDecrypt lib env mem handle input =
    Ret (Some (SetByteArrayRegion (replicate (length input) x00) 0 (length input)
                 (mirror_buffer_decrypt lib obj input).2),
         <[handle := (mirror_buffer_decrypt lib obj input).1]> mem, []).
Proof.
  intros Hne Hobj Hroom. unfold nativeDecrypt, NewByteArray.
  rewrite bool_decide_eq_false_2 by done. rewrite Hroom, Hobj.
  by destruct (mirror_buffer_decrypt lib obj input).
Qed.

Lemma nativeDecrypt_output_length mem handle input output mem' log :
  nativeDecrypt lib env mem handle input = Ret (Some output, mem', log) →
  length output = length input.
Proof.
  unfold nativeDecrypt. intros H. branches.
  rewrite SetByteArrayRegion_length. by eapply NewByteArray_length.
Qed.

Lemma nativeDecrypt_success mem handle input output mem' log :
  nativeDecrypt lib env mem handle input = Ret (Some output, mem', log) →
  handle ≠ 0%Z ∧ heap_has_room env (length input) = true.
Proof.
  unfold nativeDecrypt, NewByteArray. intros H. branches; auto.
Qed.

Lemma nativeDecrypt_null mem handle input mem' log :
  nativeDecrypt lib env mem handle input = Ret (NULL, mem', log) →
  (handle = 0%Z ∨ heap_has_room env (length input) = false) ∧ mem' = mem.
Proof.
  unfold nativeDecrypt, NewByteArray. intros H. branches; auto.
Qed.

Lemma nativeDestroy_live mem handle obj :
  handle ≠ 0%Z → mem !! handle = Some obj →
  nativeDestroy lib mem handle =
    Ret (tt, delete handle mem, [LOGI "Mirror buffer destroyed" []]).
Proof.
  intros Hne Hobj. unfold nativeDestroy, mirror_buffer_destroy.
  by rewrite bool_decide_eq_true_2.
Qed.


End MirrorBufferBinding.

(** ** Counter mode *)

Section CounterMode.
Import MirrorBufferJNI StreamDecryptor.
Context (block_cipher : list byte → list byte → list byte).
Context (derive_nonce : list byte → Z → list byte).
Context (counter_block : list byte → nat → list byte).
Context (env : JNIEnv).

Local Abbreviation ctr_xor := (ctr_xor block_cipher counter_block).
Local Abbreviation Decrypt := (Decrypt block_cipher counter_block).
Local Abbreviation decryptor_lib :=
  (StreamDecryptor.lib block_cipher derive_nonce counter_block).

Lemma ctr_xor_length key nonce pos input :
  length (ctr_xor key nonce pos input) = length input.
Proof.
  revert pos. induction input as [|b rest IH]; intros pos; simpl; [done|].
  by rewrite IH.
Qed.

(** The keystream depends on the byte offset only: decrypting [A ++ B] from
    offset [pos] is decrypting [A] from [pos] and [B] from where [A] ended. *)
Lemma ctr_xor_app key nonce pos A B :
  ctr_xor key nonce pos (A ++ B) =
    ctr_xor key nonce pos A ++ ctr_xor key nonce (pos + length A) B.
Proof.
  revert pos. induction A as [|a A IH]; intros pos; simpl.
  - by rewrite Nat.add_0_r.
  - rewrite IH. do 3 f_equal. lia.
Qed.

Lemma Decrypt_bound d nonce input :
  stream_nonce_state d = Some nonce →
  Decrypt d input =
    (Decryptor (content_key d) (Some nonce) (byte_counter d + length input),
     inr (ctr_xor (content_key d) nonce (byte_counter d) input)).
Proof. intros H. unfold Decrypt, StreamDecryptor.Decrypt. by rewrite H. Qed.

(** Through the binding: a Decrypt on a live, bound decryptor. *)
Lemma nativeDecrypt_bound (mem : gmap Z decryptor) handle d nonce input :
  handle ≠ 0%Z → mem !! handle = Some d →
  stream_nonce_state d = Some nonce →
  heap_has_room env (length input) = true →
  nativeDecrypt decryptor_lib env mem handle input =
    Ret (Some (ctr_xor (content_key d) nonce (byte_counter d) input),
         <[handle := Decryptor (content_key d) (Some nonce)
                       (byte_counter d + length input)]> mem, []).
Proof.
  intros Hne Hd Hn Hroom.
  rewrite (nativeDecrypt_live decryptor_lib env mem handle d) by done.
  simpl. rewrite (Decrypt_bound d nonce input) by done. simpl.
  rewrite <- (ctr_xor_length (content_key d) nonce (byte_counter d) input) at 1 2.
  rewrite SetByteArrayRegion_all; [done|].
  by rewrite length_replicate.
Qed.

Lemma nativeDecrypt_app (mem : gmap Z decryptor) handle d nonce A B :
  handle ≠ 0%Z → mem !! handle = Some d →
  stream_nonce_state d = Some nonce →
  heap_has_room env (length A) = true →
  heap_has_room env (length B) = true →
  heap_has_room env (length (A ++ B)) = true →
  ∃ outA outB memA memB,
    nativeDecrypt decryptor_lib env mem handle A = Ret (Some outA, memA, []) ∧
    nativeDecrypt decryptor_lib env memA handle B = Ret (Some outB, memB, []) ∧
    nativeDecrypt decryptor_lib env mem handle (A ++ B) =
      Ret (Some (outA ++ outB), memB, []).
Proof.
  intros Hne Hd Hn HA HB HAB.
  eexists _, _, _, _. split; [|split].
  - by apply (nativeDecrypt_bound mem handle d nonce A).
  - apply (nativeDecrypt_bound _ handle
             (Decryptor (content_key d) (Some nonce) (byte_counter d + length A))
             nonce B);
      [done | apply lookup_insert_eq | done | done].
  - rewrite (nativeDecrypt_bound mem handle d nonce (A ++ B)) by done.
    simpl. rewrite ctr_xor_app, insert_insert_eq, length_app.
    by rewrite Nat.add_assoc.
Qed.

(** C1: for a decryptor constructed from a 16-byte key and bound to a stream
    by InitStream, one Decrypt of [A ++ B] returns the output of a Decrypt of
    [A] followed by the output of a Decrypt of [B], and leaves the decryptor
    in the same state as the two calls. *)
Theorem decrypt_chunk_boundary_independent
    (mem0 mem1 mem2 : gmap Z decryptor) (key : list byte) (sid handle : Z)
    (log1 log2 : list log_line) (A B : list byte) :
  nativeInit decryptor_lib mem0 key = (handle, mem1, log1) →
  handle ≠ 0%Z →
  nativeInitAes decryptor_lib mem1 handle sid = Ret (tt, mem2, log2) →
  heap_has_room env (length A) = true →
  heap_has_room env (length B) = true →
  heap_has_room env (length (A ++ B)) = true →
  length key = 16 ∧
  ∃ outA outB memA memB,
    nativeDecrypt decryptor_lib env mem2 handle A = Ret (Some outA, memA, []) ∧
    nativeDecrypt decryptor_lib env memA handle B = Ret (Some outB, memB, []) ∧
    nativeDecrypt decryptor_lib env mem2 handle (A ++ B) =
      Ret (Some (outA ++ outB), memB, []).
Proof.
  intros Hinit Hne Haes HA HB HAB.
  destruct (nativeInit_handle _ _ _ _ _ _ Hinit Hne)
    as (Hkey & obj & _ & _ & ->).
  split; [done|].
  rewrite (nativeInitAes_live decryptor_lib _ handle sid obj) in Haes
    by (done || apply lookup_insert_eq).
  simplify_eq.
  eapply (nativeDecrypt_app _ handle); try done.
  - apply lookup_insert_eq.
  - done.
Qed.

(** C6: a Decrypt that succeeds on a bound decryptor returns exactly as many
    bytes as it was given, and advances the byte offset of the decryptor by
    that number. *)
Theorem decrypt_keeps_length_advances_offset
    (mem mem' : gmap Z decryptor) (handle : Z) (d : decryptor)
    (input output : list byte) (log : list log_line) :
  mem !! handle = Some d →
  is_Some (stream_nonce_state d) →
  nativeDecrypt decryptor_lib env mem handle input = Ret (Some output, mem', log) →
  length output = length input ∧
  ∃ d', mem' !! handle = Some d' ∧
        byte_counter d' = byte_counter d + length input.
Proof.
  intros Hd [nonce Hn] Hdec.
  destruct (nativeDecrypt_success _ _ _ _ _ _ _ _ Hdec) as [Hne Hroom].
  split; [exact (nativeDecrypt_output_length _ _ _ _ _ _ _ _ Hdec)|].
  rewrite (nativeDecrypt_bound mem handle d nonce input) in Hdec by done.
  simplify_eq. eexists. split; [apply lookup_insert_eq | done].
Qed.

End CounterMode.

Lemma decrypt_chunk_boundary_independent_witness :
  length Sample.key16 = 16 ∧
  ∃ outA outB memA memB,
    MirrorBufferJNI.nativeDecrypt Sample.mirror_buffer Sample.env
        Sample.mem2 1 (Sample.zeros 100) = Ret (Some outA, memA, []) ∧
    MirrorBufferJNI.nativeDecrypt Sample.mirror_buffer Sample.env
        memA 1 (Sample.zeros 88) = Ret (Some outB, memB, []) ∧
    MirrorBufferJNI.nativeDecrypt Sample.mirror_buffer Sample.env
        Sample.mem2 1 (Sample.zeros 100 ++ Sample.zeros 88) =
      Ret (Some (outA ++ outB), memB, []).
Proof.
  apply (decrypt_chunk_boundary_independent Sample.block_cipher
           Sample.derive_nonce Sample.counter_block Sample.env
           ∅ Sample.mem1 Sample.mem2 Sample.key16 7 1
           [MirrorBufferJNI.LOGI "Mirror buffer initialized successfully" []]
           [MirrorBufferJNI.LOGI "AES initialized for streamConnectionID: %llu"
                                 [7%Z]]
           (Sample.zeros 100) (Sample.zeros 88)).
  - vm_compute. reflexivity.
  - lia.
  - vm_compute. reflexivity.
  - reflexivity.
  - reflexivity.
  - reflexivity.
Defined.

Lemma decrypt_keeps_length_advances_offset_witness :
  Sample.mem2 !! 1%Z = Some Sample.bound ∧
  is_Some (StreamDecryptor.stream_nonce_state Sample.bound) ∧
  MirrorBufferJNI.nativeDecrypt Sample.mirror_buffer Sample.env
      Sample.mem2 1 (Sample.zeros 20) =
    Ret (Some Sample.plain20, Sample.mem3, []) ∧
  length Sample.plain20 = length (Sample.zeros 20) ∧
  ∃ d', Sample.mem3 !! 1%Z = Some d' ∧
        StreamDecryptor.byte_counter d' =
          StreamDecryptor.byte_counter Sample.bound + length (Sample.zeros 20).
Proof.
  assert (Sample.mem2 !! 1%Z = Some Sample.bound) as H1
    by (vm_compute; reflexivity).
  assert (is_Some (StreamDecryptor.stream_nonce_state Sample.bound)) as H2
    by (vm_compute; eauto).
  assert (MirrorBufferJNI.nativeDecrypt Sample.mirror_buffer Sample.env
            Sample.mem2 1 (Sample.zeros 20) =
          Ret (Some Sample.plain20, Sample.mem3, [])) as H3
    by (vm_compute; reflexivity).
  split; [exact H1|]. split; [exact H2|]. split; [exact H3|].
  exact (decrypt_keeps_length_advances_offset Sample.block_cipher
           Sample.derive_nonce Sample.counter_block Sample.env
           Sample.mem2 Sample.mem3 1 Sample.bound (Sample.zeros 20)
           Sample.plain20 [] H1 H2 H3).
Defined.

(** C4, as the binding has it: a decryptor that New has just created, and on
    which InitStream has not been called, does not make Decrypt fail.  Given
    room for the output array, Decrypt returns an array of the length of the
    input and logs no error; through a handle that is not null, Decrypt
    returns [NULL] only when the output array cannot be allocated. *)
Theorem decrypt_before_init_stream_returns_array
    (lib : MirrorBufferJNI.mirror_buffer_lib) (env : JNIEnv)
    (mem mem1 : gmap Z (MirrorBufferJNI.mirror_buffer_t lib))
    (key input : list byte) (handle : Z) (log : list log_line) :
  MirrorBufferJNI.nativeInit lib mem key = (handle, mem1, log) →
  handle ≠ 0%Z →
  heap_has_room env (length input) = true →
  (∃ output mem2,
     MirrorBufferJNI.nativeDecrypt lib env mem1 handle input =
       Ret (Some output, mem2, []) ∧
     length output = length input) ∧
  (∀ mem' mem'' input' log',
     MirrorBufferJNI.nativeDecrypt lib env mem' handle input' =
       Ret (NULL, mem'', log') →
     heap_has_room env (length input') = false).
Proof.
  intros Hinit Hne Hroom. split.
  - destruct (nativeInit_handle _ _ _ _ _ _ Hinit Hne)
      as (_ & obj & _ & _ & ->).
    eexists _, _. split.
    + apply (nativeDecrypt_live lib env _ handle obj);
        [done | apply lookup_insert_eq | done].
    + rewrite SetByteArrayRegion_length. apply length_replicate.
  - intros mem' mem'' input' log' Hnull.
    by destruct (nativeDecrypt_null _ _ _ _ _ _ _ Hnull) as [[?|?] _].
Qed.

Lemma decrypt_before_init_stream_returns_array_witness :
  (∃ output mem2,
     MirrorBufferJNI.nativeDecrypt Sample.mirror_buffer Sample.env
         Sample.mem1 1 (Sample.zeros 3) = Ret (Some output, mem2, []) ∧
     length output = length (Sample.zeros 3)) ∧
  (∀ mem' mem'' input' log',
     MirrorBufferJNI.nativeDecrypt Sample.mirror_buffer Sample.env
         mem' 1 input' = Ret (NULL, mem'', log') →
     heap_has_room Sample.env (length input') = false).
Proof.
  apply (decrypt_before_init_stream_returns_array Sample.mirror_buffer
           Sample.env ∅ Sample.mem1 Sample.key16 (Sample.zeros 3) 1
           [MirrorBufferJNI.LOGI "Mirror buffer initialized successfully" []]).
  - vm_compute. reflexivity.
  - lia.
  - reflexivity.
Defined.

(** C4 as stated fails: on the decryptor that New returned for a 16-byte
    key, with no InitStream, Decrypt of three bytes returns an array of three
    bytes and not the failure. *)
Lemma decrypt_before_init_stream_does_not_fail :
  MirrorBufferJNI.nativeInit Sample.mirror_buffer ∅ Sample.key16 =
    (1%Z, Sample.mem1,
     [MirrorBufferJNI.LOGI "Mirror buffer initialized successfully" []]) ∧
  StreamDecryptor.stream_nonce_state Sample.unbound = None ∧
  MirrorBufferJNI.nativeDecrypt Sample.mirror_buffer Sample.env
      Sample.mem1 1 (Sample.zeros 3) =
    Ret (Some (Sample.zeros 3), Sample.mem1, []) ∧
  ¬ ∃ mem' log,
      MirrorBufferJNI.nativeDecrypt Sample.mirror_buffer Sample.env
          Sample.mem1 1 (Sample.zeros 3) = Ret (NULL, mem', log).
Proof.
  assert (MirrorBufferJNI.nativeDecrypt Sample.mirror_buffer Sample.env
            Sample.mem1 1 (Sample.zeros 3) =
          Ret (Some (Sample.zeros 3), Sample.mem1, [])) as Hrun
    by (vm_compute; reflexivity).
  split; [vm_compute; reflexivity|]. split; [reflexivity|]. split; [done|].
  intros (mem' & log & H). rewrite Hrun in H. discriminate.
Qed.

(** C10: InitStream reports nothing.  With the null handle it returns
    normally, having changed nothing and only logged a line; what the caller
    receives is what it receives when a live decryptor has been bound. *)
Theorem init_stream_reports_nothing
    (lib : MirrorBufferJNI.mirror_buffer_lib)
    (mem mem' : gmap Z (MirrorBufferJNI.mirror_buffer_t lib))
    (handle sid sid' : Z) (obj : MirrorBufferJNI.mirror_buffer_t lib) :
  handle ≠ 0%Z →
  mem' !! handle = Some obj →
  MirrorBufferJNI.nativeInitAes lib mem 0 sid =
    Ret (tt, mem, [MirrorBufferJNI.LOGE "Invalid mirror_buffer handle" []]) ∧
  MirrorBufferJNI.nativeInitAes lib mem' handle sid' =
    Ret (tt,
         <[handle := MirrorBufferJNI.mirror_buffer_init_aes lib obj
                       (MirrorBufferJNI.uint64_of_jlong sid')]> mem',
         [MirrorBufferJNI.LOGI "AES initialized for streamConnectionID: %llu"
                               [MirrorBufferJNI.uint64_of_jlong sid']]) ∧
  MirrorBufferJNI.returned lib (MirrorBufferJNI.nativeInitAes lib mem 0 sid) =
    MirrorBufferJNI.returned lib (MirrorBufferJNI.nativeInitAes lib mem' handle sid') ∧
  (∀ m h s,
     MirrorBufferJNI.returned lib (MirrorBufferJNI.nativeInitAes lib m h s) = Some tt ∨
     (h ≠ 0%Z ∧ m !! h = None)).
Proof.
  intros Hne Hobj.
  rewrite (nativeInitAes_live lib mem' handle sid' obj) by done.
  do 3 (split; [done|]).
  intros m h s. unfold MirrorBufferJNI.nativeInitAes.
  case_bool_decide; [by left|].
  destruct (m !! h); [by left | by right].
Qed.

Lemma init_stream_reports_nothing_witness :
  MirrorBufferJNI.nativeInitAes Sample.mirror_buffer Sample.mem1 0 7 =
    Ret (tt, Sample.mem1,
         [MirrorBufferJNI.LOGE "Invalid mirror_buffer handle" []]) ∧
  MirrorBufferJNI.nativeInitAes Sample.mirror_buffer Sample.mem1 1 7 =
    Ret (tt, <[1%Z := Sample.bound]> Sample.mem1,
         [MirrorBufferJNI.LOGI "AES initialized for streamConnectionID: %llu"
                               [MirrorBufferJNI.uint64_of_jlong 7]]) ∧
  MirrorBufferJNI.returned Sample.mirror_buffer
      (MirrorBufferJNI.nativeInitAes Sample.mirror_buffer Sample.mem1 0 7) =
    MirrorBufferJNI.returned Sample.mirror_buffer
      (MirrorBufferJNI.nativeInitAes Sample.mirror_buffer Sample.mem1 1 7) ∧
  (∀ m h s,
     MirrorBufferJNI.returned Sample.mirror_buffer
       (MirrorBufferJNI.nativeInitAes Sample.mirror_buffer m h s) = Some tt ∨
     (h ≠ 0%Z ∧ m !! h = None)).
Proof.
  apply (init_stream_reports_nothing Sample.mirror_buffer
           Sample.mem1 Sample.mem1 1 7 7 Sample.unbound).
  - lia.
  - vm_compute. reflexivity.
Defined.



(** New, Destroy and Destroy again on the sample decryptor: both calls
    return, and the heap is empty after each. *)
Example destroy_twice_through_one_handle :
  MirrorBufferJNI.nativeInit Sample.mirror_buffer ∅ Sample.key16 =
    (1%Z, Sample.mem1,
     [MirrorBufferJNI.LOGI "Mirror buffer initialized successfully" []]) ∧
  MirrorBufferJNI.nativeDestroy Sample.mirror_buffer Sample.mem1 1 =
    Ret (tt, ∅, [MirrorBufferJNI.LOGI "Mirror buffer destroyed" []]) ∧
  MirrorBufferJNI.nativeDestroy Sample.mirror_buffer ∅ 1 =
    Ret (tt, ∅, [MirrorBufferJNI.LOGI "Mirror buffer destroyed" []]).
Proof. repeat split; vm_compute; reflexivity. Qed.




(** ** Further properties of the FairPlay binding *)

Section FairPlayBindingMore.
Import FairPlayJNI.
Context (lib : fairplay_lib) (env : JNIEnv).
Implicit Types (fp : fairplay_t lib) (g : option (fairplay_t lib)).

(** What [SetByteArrayRegion] leaves in a fresh array: the bytes written,
    and zero where nothing was written. *)
Lemma SetByteArrayRegion_fresh_lookup n buf i :
  i < n →
  SetByteArrayRegion (replicate n x00) 0 n buf !! i = Some (default x00 (buf !! i)).
Proof.
  intros Hi. unfold SetByteArrayRegion. rewrite list_lookup_imap.
  rewrite lookup_replicate_2 by done. simpl.
  rewrite bool_decide_eq_true_2 by lia. by rewrite Nat.sub_0_r.
Qed.

Lemma SetByteArrayRegion_fresh_all n buf :
  length buf = n → SetByteArrayRegion (replicate n x00) 0 n buf = buf.
Proof.
  intros <-. apply SetByteArrayRegion_all. apply length_replicate.
Qed.

Lemma GetByteArrayRegion_all (a : list byte) n :
  length a = n → GetByteArrayRegion a 0 n = a.
Proof. intros <-. unfold GetByteArrayRegion. by rewrite drop_0, firstn_all. Qed.

Lemma nativeHandshake_bad_length fp request :
  length request ≠ 164 →
  nativeHandshake lib env (Some fp) request =
    Ret (NULL, Some fp,
         [LOGE "Invalid request length: %d (expected 164)"
               [Z.of_nat (length request)]]).
Proof.
  intros Hlen. unfold nativeHandshake.
  rewrite bool_decide_eq_true_2; [done|]. by apply (GetArrayLength_ne _ 164).
Qed.

Lemma nativeDecrypt_bad_length fp encrypted_key :
  length encrypted_key ≠ 72 →
  nativeDecrypt lib env (Some fp) encrypted_key =
    Ret (NULL, Some fp,
         [LOGE "Invalid ekey length: %d (expected 72)"
               [Z.of_nat (length encrypted_key)]]).
Proof.
  intros Hlen. unfold nativeDecrypt.
  rewrite bool_decide_eq_true_2; [done|]. by apply (GetArrayLength_ne _ 72).
Qed.

End FairPlayBindingMore.

(** X1: on an initialized engine, whatever state it is in, a Handshake that
    succeeds was given exactly 164 bytes and returns exactly 32; and a
    request of any other length returns [NULL], logs its length and leaves
    the engine as it was, without reaching [fairplay_handshake]. *)
Theorem handshake_164_in_32_out
    (lib : FairPlayJNI.fairplay_lib) (env : JNIEnv)
    (fp : FairPlayJNI.fairplay_t lib) (request bad : list byte) :
  (∀ response g' log,
     FairPlayJNI.nativeHandshake lib env (Some fp) request =
       Ret (Some response, g', log) →
     length request = 164 ∧ length response = 32) ∧
  (length bad ≠ 164 →
   FairPlayJNI.nativeHandshake lib env (Some fp) bad =
     Ret (NULL, Some fp,
          [FairPlayJNI.LOGE "Invalid request length: %d (expected 164)"
                            [Z.of_nat (length bad)]])).
Proof.
  split; [|apply nativeHandshake_bad_length].
  intros response g' log Hok. split.
  - unfold FairPlayJNI.nativeHandshake in Hok. branches.
    destruct (decide (length request = 164)) as [|Hne]; [done|].
    by apply (GetArrayLength_ne _ 164) in Hne.
  - unfold FairPlayJNI.nativeHandshake in Hok. branches.
    rewrite SetByteArrayRegion_length. by eapply NewByteArray_length.
Qed.

Lemma handshake_164_in_32_out_witness :
  (length (Sample.zeros 164) = 164 ∧ length (replicate 32 Byte.x02) = 32) ∧
  FairPlayJNI.nativeHandshake Sample.fairplay Sample.env
      (Some (Sample.engine_after Sample.early)) (Sample.zeros 163) =
    Ret (NULL, Some (Sample.engine_after Sample.early),
         [FairPlayJNI.LOGE "Invalid request length: %d (expected 164)"
                           [163%Z]]).
Proof.
  split.
  - apply (proj1 (handshake_164_in_32_out Sample.fairplay Sample.env
                    (Sample.engine_after Sample.half) (Sample.zeros 164) [])
             (replicate 32 Byte.x02) (Some (Sample.engine_after Sample.ready))
             [FairPlayJNI.LOGI "FairPlay handshake successful" []]).
    vm_compute. reflexivity.
  - apply (proj2 (handshake_164_in_32_out Sample.fairplay Sample.env
                    (Sample.engine_after Sample.early) []
                    (Sample.zeros 163))).
    vm_compute. lia.
Defined.

(** X2: on an initialized engine, whatever state it is in, a DecryptKey that
    succeeds was given exactly 72 bytes and returns exactly 16; and a key
    blob of any other length returns [NULL], logs its length and leaves the
    engine as it was, without reaching [fairplay_decrypt]. *)
Theorem decrypt_key_72_in_16_out
    (lib : FairPlayJNI.fairplay_lib) (env : JNIEnv)
    (fp : FairPlayJNI.fairplay_t lib) (encrypted_key bad : list byte) :
  (∀ aes_key g' log,
     FairPlayJNI.nativeDecrypt lib env (Some fp) encrypted_key =
       Ret (Some aes_key, g', log) →
     length encrypted_key = 72 ∧ length aes_key = 16) ∧
  (length bad ≠ 72 →
   FairPlayJNI.nativeDecrypt lib env (Some fp) bad =
     Ret (NULL, Some fp,
          [FairPlayJNI.LOGE "Invalid ekey length: %d (expected 72)"
                            [Z.of_nat (length bad)]])).
Proof.
  split; [|apply nativeDecrypt_bad_length].
  intros aes_key g' log Hok. split.
  - unfold FairPlayJNI.nativeDecrypt in Hok. branches.
    destruct (decide (length encrypted_key = 72)) as [|Hne]; [done|].
    by apply (GetArrayLength_ne _ 72) in Hne.
  - unfold FairPlayJNI.nativeDecrypt in Hok. branches.
    rewrite SetByteArrayRegion_length. by eapply NewByteArray_length.
Qed.

Lemma decrypt_key_72_in_16_out_witness :
  (length (Sample.zeros 72) = 72 ∧ length (Sample.zeros 16) = 16) ∧
  FairPlayJNI.nativeDecrypt Sample.fairplay Sample.env
      (Some (Sample.engine_after Sample.half)) (Sample.zeros 71) =
    Ret (NULL, Some (Sample.engine_after Sample.half),
         [FairPlayJNI.LOGE "Invalid ekey length: %d (expected 72)" [71%Z]]).
Proof.
  split.
  - apply (proj1 (decrypt_key_72_in_16_out Sample.fairplay Sample.env
                    (Sample.engine_after Sample.ready) (Sample.zeros 72) [])
             (Sample.zeros 16) (Some (Sample.engine_after Sample.ready))
             [FairPlayJNI.LOGI "FairPlay decrypt successful - got 16-byte AES key" [];
              FairPlayJNI.LOGI "AES key: %02X %02X %02X %02X %02X %02X %02X %02X..."
                               [0; 0; 0; 0; 0; 0; 0; 0]%Z]).
    vm_compute. reflexivity.
  - apply (proj2 (decrypt_key_72_in_16_out Sample.fairplay Sample.env
                    (Sample.engine_after Sample.half) []
                    (Sample.zeros 71))).
    vm_compute. lia.
Defined.

(** X3: a DecryptKey that succeeds writes the first eight bytes of the
    content key it returns to logcat. *)
Theorem decrypt_key_logs_half_the_key
    (lib : FairPlayJNI.fairplay_lib) (env : JNIEnv)
    (g g' : option (FairPlayJNI.fairplay_t lib))
    (encrypted_key aes_key : list byte) (log : list log_line) :
  FairPlayJNI.nativeDecrypt lib env g encrypted_key =
    Ret (Some aes_key, g', log) →
  FairPlayJNI.LOGI "AES key: %02X %02X %02X %02X %02X %02X %02X %02X..."
                   (byte_to_Z <$> take 8 aes_key) ∈ log.
Proof.
  unfold FairPlayJNI.nativeDecrypt, NewByteArray. intros H. branches.
  rewrite !elem_of_cons. right. by left.
Qed.

Lemma decrypt_key_logs_half_the_key_witness :
  FairPlayJNI.LOGI "AES key: %02X %02X %02X %02X %02X %02X %02X %02X..."
                   (byte_to_Z <$> take 8 (replicate 16 Byte.xab)) ∈
  [FairPlayJNI.LOGI "FairPlay decrypt successful - got 16-byte AES key" [];
   FairPlayJNI.LOGI "AES key: %02X %02X %02X %02X %02X %02X %02X %02X..."
                    [171; 171; 171; 171; 171; 171; 171; 171]%Z].
Proof.
  apply (decrypt_key_logs_half_the_key Sample.fairplay Sample.env
           (Some (Sample.engine_after Sample.ready))
           (Some (Sample.engine_after Sample.ready))
           (replicate 72 Byte.xab) (replicate 16 Byte.xab)).
  vm_compute. reflexivity.
Defined.

Section FairPlayDefers.
Import FairPlayJNI.
Context (lib : fairplay_lib) (env : JNIEnv).

Lemma nativeSetup_defers_to_library (fp fp' : fairplay_t lib) request ret res :
  length request = 16 →
  fairplay_setup lib fp request = (fp', ret, res) →
  heap_has_room env 142 = true →
  nativeSetup lib env (Some fp) request =
    if bool_decide (ret ≠ 0%Z)
    then Ret (NULL, Some fp', [LOGE "FairPlay setup failed: %d" [ret]])
    else Ret (Some (SetByteArrayRegion (replicate 142 x00) 0 142 res), Some fp',
              [LOGI "FairPlay setup successful" []]).
Proof.
  intros Hlen Hlib Hroom. unfold nativeSetup, GetArrayLength, NewByteArray.
  rewrite Hlen, Hroom. simpl.
  unfold GetByteArrayRegion. rewrite drop_0, <- Hlen, firstn_all, Hlib.
  by case_bool_decide.
Qed.

Lemma nativeDecrypt_defers_to_library (fp fp' : fairplay_t lib) key ret res :
  length key = 72 →
  fairplay_decrypt lib fp key = (fp', ret, res) →
  heap_has_room env 16 = true →
  nativeDecrypt lib env (Some fp) key =
    if bool_decide (ret ≠ 0%Z)
    then Ret (NULL, Some fp', [LOGE "FairPlay decrypt failed: %d" [ret]])
    else Ret (Some (SetByteArrayRegion (replicate 16 x00) 0 16 res), Some fp',
              [LOGI "FairPlay decrypt successful - got 16-byte AES key" [];
               LOGI "AES key: %02X %02X %02X %02X %02X %02X %02X %02X..."
                    ((λ i, byte_to_Z (default x00 (res !! i))) <$>
                       [0; 1; 2; 3; 4; 5; 6; 7])]).
Proof.
  intros Hlen Hlib Hroom. unfold nativeDecrypt, GetArrayLength, NewByteArray.
  rewrite Hlen, Hroom. simpl.
  unfold GetByteArrayRegion. rewrite drop_0, <- Hlen, firstn_all, Hlib.
  by case_bool_decide.
Qed.

End FairPlayDefers.



(** X5: Setup, Handshake and DecryptKey neither create nor release the
    engine: after any of them the global is null exactly if it was null
    before, also when the library has reported a failure. *)
Theorem calls_keep_the_engine_allocated
    (lib : FairPlayJNI.fairplay_lib) (env : JNIEnv)
    (g g1 g2 g3 : option (FairPlayJNI.fairplay_t lib))
    (req1 req2 req3 : list byte) (v1 v2 v3 : jbyteArray)
    (log1 log2 log3 : list log_line) :
  FairPlayJNI.nativeSetup lib env g req1 = Ret (v1, g1, log1) →
  FairPlayJNI.nativeHandshake lib env g req2 = Ret (v2, g2, log2) →
  FairPlayJNI.nativeDecrypt lib env g req3 = Ret (v3, g3, log3) →
  (is_Some g1 ↔ is_Some g) ∧ (is_Some g2 ↔ is_Some g) ∧ (is_Some g3 ↔ is_Some g).
Proof.
  intros H1 H2 H3. split; [|split].
  - unfold FairPlayJNI.nativeSetup in H1. branches; done.
  - unfold FairPlayJNI.nativeHandshake in H2. branches; done.
  - unfold FairPlayJNI.nativeDecrypt in H3. branches; done.
Qed.

Lemma calls_keep_the_engine_allocated_witness :
  (is_Some (Some (Sample.engine_after Sample.half)) ↔
     is_Some (Some (Sample.engine_after Sample.half))) ∧
  (is_Some (Some (Sample.engine_after Sample.ready)) ↔
     is_Some (Some (Sample.engine_after Sample.half))) ∧
  (is_Some (Some (Sample.engine_after Sample.half)) ↔
     is_Some (Some (Sample.engine_after Sample.half))).
Proof.
  apply (calls_keep_the_engine_allocated Sample.fairplay Sample.env
           (Some (Sample.engine_after Sample.half)) _ _ _
           (Sample.zeros 16) (Sample.zeros 164) (Sample.zeros 72)
           (Some (replicate 142 Byte.x01)) (Some (replicate 32 Byte.x02)) NULL
           [FairPlayJNI.LOGI "FairPlay setup successful" []]
           [FairPlayJNI.LOGI "FairPlay handshake successful" []]
           [FairPlayJNI.LOGE "FairPlay decrypt failed: %d" [(-4)%Z]]);
    vm_compute; reflexivity.
Defined.

(** X6: Init returns 0 or -1, and 0 exactly when an engine exists afterwards.
    When it returns -1 there was no engine and there is none, so a later Init
    asks [fairplay_init] again. *)
Theorem init_returns_0_iff_engine_exists
    (lib : FairPlayJNI.fairplay_lib)
    (g g' : option (FairPlayJNI.fairplay_t lib)) (r : Z) (log : list log_line) :
  FairPlayJNI.nativeInit lib g = (r, g', log) →
  (r = 0%Z ∨ r = (-1)%Z) ∧
  (r = 0%Z ↔ is_Some g') ∧
  (r = (-1)%Z → g = None ∧ g' = None ∧
     FairPlayJNI.nativeInit lib g' = (r, g', log)).
Proof.
  unfold FairPlayJNI.nativeInit. intros H.
  destruct g as [fp|]; simplify_eq.
  - split; [by left|]. split; [by split; eauto|]. done.
  - destruct (FairPlayJNI.fairplay_init lib _) eqn:E; simplify_eq.
    + split; [by left|]. split; [by split; eauto|]. done.
    + split; [by right|]. split.
      * split; [done|]. by intros [? ?].
      * done.
Qed.

Lemma init_returns_0_iff_engine_exists_witness :
  ((-1)%Z = 0%Z ∨ (-1)%Z = (-1)%Z) ∧
  ((-1)%Z = 0%Z ↔ is_Some (@None (FairPlayJNI.fairplay_t Sample.starved_fairplay))) ∧
  ((-1)%Z = (-1)%Z →
     @None (FairPlayJNI.fairplay_t Sample.starved_fairplay) = None ∧
     @None (FairPlayJNI.fairplay_t Sample.starved_fairplay) = None ∧
     FairPlayJNI.nativeInit Sample.starved_fairplay None =
       ((-1)%Z, None, [FairPlayJNI.LOGE "Failed to initialize FairPlay" []])).
Proof.
  apply (init_returns_0_iff_engine_exists Sample.starved_fairplay None None
           (-1) [FairPlayJNI.LOGE "Failed to initialize FairPlay" []]).
  reflexivity.
Defined.

(** X7: whatever the engine was, Destroy followed by Init behaves as the
    first Init of the process: the engine is created anew. *)
Theorem destroy_then_init_starts_over
    (lib : FairPlayJNI.fairplay_lib) (g : option (FairPlayJNI.fairplay_t lib)) :
  FairPlayJNI.nativeInit lib (FairPlayJNI.nativeDestroy lib g).1.2 =
    FairPlayJNI.nativeInit lib None ∧
  logs_error (FairPlayJNI.nativeDestroy lib g).2 = false ∧
  ((FairPlayJNI.nativeDestroy lib g).2 = [] ↔ g = None).
Proof. destruct g; simpl; split_and!; try done; by split. Qed.

(** X8: the FairPlay binding does not check that the result array could be
    allocated.  A Setup, Handshake or DecryptKey hands [NULL] to
    [SetByteArrayRegion] exactly when the engine exists, the buffer has the
    right length, the library has returned 0, and the Java heap has no room
    for the result; in every other case the call returns. *)
Theorem fault_exactly_when_result_array_is_missing
    (lib : FairPlayJNI.fairplay_lib) (env : JNIEnv)
    (g : option (FairPlayJNI.fairplay_t lib)) (req : list byte) :
  (FairPlayJNI.nativeSetup lib env g req = Fault ↔
     ∃ fp, g = Some fp ∧ length req = 16 ∧
           (FairPlayJNI.fairplay_setup lib fp req).1.2 = 0%Z ∧
           heap_has_room env 142 = false) ∧
  (FairPlayJNI.nativeHandshake lib env g req = Fault ↔
     ∃ fp, g = Some fp ∧ length req = 164 ∧
           (FairPlayJNI.fairplay_handshake lib fp req).1.2 = 0%Z ∧
           heap_has_room env 32 = false) ∧
  (FairPlayJNI.nativeDecrypt lib env g req = Fault ↔
     ∃ fp, g = Some fp ∧ length req = 72 ∧
           (FairPlayJNI.fairplay_decrypt lib fp req).1.2 = 0%Z ∧
           heap_has_room env 16 = false).
Proof.
  split; [|split].
  - destruct g as [fp|]; [|split; [done | by intros (? & ? & _)]].
    destruct (decide (length req = 16)) as [Hlen|Hlen].
    + unfold FairPlayJNI.nativeSetup, GetArrayLength, NewByteArray.
      rewrite (GetByteArrayRegion_all req 16 Hlen), Hlen.
      rewrite bool_decide_eq_false_2 by (intros H; by apply H).
      destruct (FairPlayJNI.fairplay_setup lib fp req) as [[fp' ret] res] eqn:E.
      simpl. case_bool_decide as Hret.
      * split; [done|]. intros (fp0 & [= <-] & _ & H0 & _).
        rewrite E in H0. by simpl in H0.
      * subst ret.
        destruct (heap_has_room env 142); split; try done.
        -- by intros (? & _ & _ & _ & ?).
        -- intros _. exists fp. by rewrite E.
    + rewrite nativeSetup_bad_length by done.
      split; [done|]. intros (? & ? & ? & _). by simplify_eq.
  - destruct g as [fp|]; [|split; [done | by intros (? & ? & _)]].
    destruct (decide (length req = 164)) as [Hlen|Hlen].
    + unfold FairPlayJNI.nativeHandshake, GetArrayLength, NewByteArray.
      rewrite (GetByteArrayRegion_all req 164 Hlen), Hlen.
      rewrite bool_decide_eq_false_2 by (intros H; by apply H).
      destruct (FairPlayJNI.fairplay_handshake lib fp req) as [[fp' ret] res] eqn:E.
      simpl. case_bool_decide as Hret.
      * split; [done|]. intros (fp0 & [= <-] & _ & H0 & _).
        rewrite E in H0. by simpl in H0.
      * subst ret.
        destruct (heap_has_room env 32); split; try done.
        -- by intros (? & _ & _ & _ & ?).
        -- intros _. exists fp. by rewrite E.
    + rewrite nativeHandshake_bad_length by done.
      split; [done|]. intros (? & ? & ? & _). by simplify_eq.
  - destruct g as [fp|]; [|split; [done | by intros (? & ? & _)]].
    destruct (decide (length req = 72)) as [Hlen|Hlen].
    + unfold FairPlayJNI.nativeDecrypt, GetArrayLength, NewByteArray.
      rewrite (GetByteArrayRegion_all req 72 Hlen), Hlen.
      rewrite bool_decide_eq_false_2 by (intros H; by apply H).
      destruct (FairPlayJNI.fairplay_decrypt lib fp req) as [[fp' ret] res] eqn:E.
      simpl. case_bool_decide as Hret.
      * split; [done|]. intros (fp0 & [= <-] & _ & H0 & _).
        rewrite E in H0. by simpl in H0.
      * subst ret.
        destruct (heap_has_room env 16); split; try done.
        -- by intros (? & _ & _ & _ & ?).
        -- intros _. exists fp. by rewrite E.
    + rewrite nativeDecrypt_bad_length by done.
      split; [done|]. intros (? & ? & ? & _). by simplify_eq.
Qed.

(** ** Further properties of the mirror-buffer binding *)

(** X9: New returns the handle 0 exactly when it has allocated nothing, and
    it does so for every key that is not 16 bytes long, without reaching
    [mirror_buffer_init]. *)
Theorem new_returns_0_iff_nothing_allocated
    (lib : MirrorBufferJNI.mirror_buffer_lib)
    (mem mem' : gmap Z (MirrorBufferJNI.mirror_buffer_t lib))
    (key : list byte) (handle : Z) (log : list log_line) :
  MirrorBufferJNI.nativeInit lib mem key = (handle, mem', log) →
  (handle = 0%Z ↔ mem' = mem) ∧
  (length key ≠ 16 →
   handle = 0%Z ∧
   log = [MirrorBufferJNI.LOGE "Invalid AES key length: %d (expected 16)"
                               [Z.of_nat (length key)]]).
Proof.
  intros Hinit. split.
  - split.
    + intros ->. unfold MirrorBufferJNI.nativeInit in Hinit. branches; try done.
      pose proof (fresh_addr_spec lib mem) as [Hpos _]. lia.
    + intros ->. destruct (decide (handle = 0%Z)) as [|Hne]; [done|].
      destruct (nativeInit_handle _ _ _ _ _ _ Hinit Hne)
        as (_ & obj & _ & Hfresh & Heq).
      rewrite Heq, lookup_insert_eq in Hfresh. done.
  - intros Hlen. unfold MirrorBufferJNI.nativeInit in Hinit.
    rewrite bool_decide_eq_true_2 in Hinit by (by apply (GetArrayLength_ne _ 16)).
    by simplify_eq.
Qed.

Lemma new_returns_0_iff_nothing_allocated_witness :
  (0%Z = 0%Z ↔ Sample.mem1 = Sample.mem1) ∧
  (length (Sample.zeros 17) ≠ 16 →
   0%Z = 0%Z ∧
   [MirrorBufferJNI.LOGE "Invalid AES key length: %d (expected 16)" [17%Z]] =
   [MirrorBufferJNI.LOGE "Invalid AES key length: %d (expected 16)"
                         [Z.of_nat (length (Sample.zeros 17))]]).
Proof.
  apply (new_returns_0_iff_nothing_allocated Sample.mirror_buffer
           Sample.mem1 Sample.mem1 (Sample.zeros 17) 0
           [MirrorBufferJNI.LOGE "Invalid AES key length: %d (expected 16)"
                                 [17%Z]]).
  vm_compute. reflexivity.
Defined.

(** X10: the handle of a new decryptor is an address at which nothing was
    live; afterwards it holds the object that [mirror_buffer_init] made,
    every other address holds what it held, and the next New returns a
    different handle. *)
Theorem new_handle_is_fresh
    (lib : MirrorBufferJNI.mirror_buffer_lib)
    (mem mem' : gmap Z (MirrorBufferJNI.mirror_buffer_t lib))
    (key : list byte) (handle : Z) (log : list log_line) :
  MirrorBufferJNI.nativeInit lib mem key = (handle, mem', log) →
  handle ≠ 0%Z →
  mem !! handle = None ∧
  is_Some (mem' !! handle) ∧
  mem' !! handle = MirrorBufferJNI.mirror_buffer_init lib key ∧
  (∀ h, h ≠ handle → mem' !! h = mem !! h) ∧
  (∀ key2 handle2 mem2 log2,
     MirrorBufferJNI.nativeInit lib mem' key2 = (handle2, mem2, log2) →
     handle2 ≠ handle).
Proof.
  intros Hinit Hne.
  destruct (nativeInit_handle _ _ _ _ _ _ Hinit Hne)
    as (_ & obj & Hobj & Hfresh & ->).
  split; [done|]. rewrite lookup_insert_eq. split; [eauto|]. split; [done|].
  split.
  - intros h Hh. by rewrite lookup_insert_ne.
  - intros key2 handle2 mem2 log2 Hinit2 ->.
    destruct (nativeInit_handle _ _ _ _ _ _ Hinit2 Hne)
      as (_ & _ & _ & Hfresh2 & _).
    by rewrite lookup_insert_eq in Hfresh2.
Qed.

Lemma new_handle_is_fresh_witness :
  (∅ : Sample.mirror_buffer_heap) !! 1%Z = None ∧
  is_Some (Sample.mem1 !! 1%Z) ∧
  Sample.mem1 !! 1%Z =
    MirrorBufferJNI.mirror_buffer_init Sample.mirror_buffer Sample.key16 ∧
  (∀ h, h ≠ 1%Z → Sample.mem1 !! h = (∅ : Sample.mirror_buffer_heap) !! h) ∧
  (∀ key2 handle2 mem2 log2,
     MirrorBufferJNI.nativeInit Sample.mirror_buffer Sample.mem1 key2 =
       (handle2, mem2, log2) →
     handle2 ≠ 1%Z).
Proof.
  apply (new_handle_is_fresh Sample.mirror_buffer ∅ Sample.mem1 Sample.key16 1
           [MirrorBufferJNI.LOGI "Mirror buffer initialized successfully" []]).
  - vm_compute. reflexivity.
  - lia.
Defined.

(** X11: New followed by Destroy through the handle it returned leaves the
    native heap exactly as it was before New. *)
Theorem new_then_destroy_restores_heap
    (lib : MirrorBufferJNI.mirror_buffer_lib)
    (mem mem' : gmap Z (MirrorBufferJNI.mirror_buffer_t lib))
    (key : list byte) (handle : Z) (log : list log_line) :
  MirrorBufferJNI.nativeInit lib mem key = (handle, mem', log) →
  handle ≠ 0%Z →
  MirrorBufferJNI.nativeDestroy lib mem' handle =
    Ret (tt, mem, [MirrorBufferJNI.LOGI "Mirror buffer destroyed" []]).
Proof.
  intros Hinit Hne.
  destruct (nativeInit_handle _ _ _ _ _ _ Hinit Hne)
    as (_ & obj & _ & Hfresh & ->).
  rewrite (nativeDestroy_live lib _ handle obj)
    by (done || apply lookup_insert_eq).
  by rewrite delete_insert_id.
Qed.

Lemma new_then_destroy_restores_heap_witness :
  MirrorBufferJNI.nativeDestroy Sample.mirror_buffer Sample.mem1 1 =
    Ret (tt, ∅, [MirrorBufferJNI.LOGI "Mirror buffer destroyed" []]).
Proof.
  apply (new_then_destroy_restores_heap Sample.mirror_buffer ∅ Sample.mem1
           Sample.key16 1
           [MirrorBufferJNI.LOGI "Mirror buffer initialized successfully" []]).
  - vm_compute. reflexivity.
  - lia.
Defined.



(** X13: the cast of the [jlong] stream-connection identifier to [uint64_t]
    yields a value below 2^64, keeps a non-negative identifier, adds 2^64 to
    a negative one, and sends different [jlong] identifiers to different
    values. *)
Theorem stream_id_cast_is_injective (x y : Z) :
  (- 2 ^ 63 ≤ x < 2 ^ 63)%Z →
  (- 2 ^ 63 ≤ y < 2 ^ 63)%Z →
  (0 ≤ MirrorBufferJNI.uint64_of_jlong x < 2 ^ 64)%Z ∧
  (0 ≤ x → MirrorBufferJNI.uint64_of_jlong x = x)%Z ∧
  (x < 0 → MirrorBufferJNI.uint64_of_jlong x = x + 2 ^ 64)%Z ∧
  (MirrorBufferJNI.uint64_of_jlong x = MirrorBufferJNI.uint64_of_jlong y → x = y).
Proof.
  intros Hx Hy. unfold MirrorBufferJNI.uint64_of_jlong.
  assert (∀ z, (- 2 ^ 63 ≤ z < 2 ^ 63)%Z →
               (z mod 2 ^ 64 = if bool_decide (0 ≤ z)%Z then z else z + 2 ^ 64)%Z)
    as Hmod.
  { intros z Hz. case_bool_decide.
    - apply Z.mod_small. lia.
    - symmetry. apply (Z.mod_unique _ _ (-1)); lia. }
  rewrite (Hmod x Hx), (Hmod y Hy).
  repeat case_bool_decide; split_and!; try lia.
Qed.

Lemma stream_id_cast_is_injective_witness :
  (0 ≤ MirrorBufferJNI.uint64_of_jlong (-1) < 2 ^ 64)%Z ∧
  (0 ≤ -1 → MirrorBufferJNI.uint64_of_jlong (-1) = -1)%Z ∧
  (-1 < 0 → MirrorBufferJNI.uint64_of_jlong (-1) = -1 + 2 ^ 64)%Z ∧
  (MirrorBufferJNI.uint64_of_jlong (-1) = MirrorBufferJNI.uint64_of_jlong 7 →
   (-1 = 7)%Z).
Proof.
  apply (stream_id_cast_is_injective (-1) 7); lia.
Defined.

(** X14: given room for the output array, a Decrypt through the handle of a
    live decryptor returns an array of the length of the input that holds
    the bytes [mirror_buffer_decrypt] wrote and zero wherever it wrote
    nothing; for an empty input it returns an empty array, not [NULL]. *)
Theorem decrypt_returns_what_the_library_wrote
    (lib : MirrorBufferJNI.mirror_buffer_lib) (env : JNIEnv)
    (mem : gmap Z (MirrorBufferJNI.mirror_buffer_t lib))
    (handle : Z) (obj : MirrorBufferJNI.mirror_buffer_t lib)
    (input : list byte) :
  handle ≠ 0%Z →
  mem !! handle = Some obj →
  heap_has_room env (length input) = true →
  ∃ output,
    MirrorBufferJNI.returned lib
      (MirrorBufferJNI.nativeDecrypt lib env mem handle input) =
      Some (Some output) ∧
    length output = length input ∧
    (∀ i, i < length input →
       output !! i =
         Some (default x00
                 ((MirrorBufferJNI.mirror_buffer_decrypt lib obj input).2 !! i))) ∧
    (length (MirrorBufferJNI.mirror_buffer_decrypt lib obj input).2 = length input →
     output = (MirrorBufferJNI.mirror_buffer_decrypt lib obj input).2) ∧
    (input = [] → output = []).
Proof.
  intros Hne Hobj Hroom.
  rewrite (nativeDecrypt_live lib env mem handle obj input) by done.
  eexists. split; [done|].
  split; [by rewrite SetByteArrayRegion_length, length_replicate|].
  split; [intros i Hi; by apply SetByteArrayRegion_fresh_lookup|].
  split; [intros Hlen; by apply SetByteArrayRegion_fresh_all|].
  by intros ->.
Qed.

Lemma decrypt_returns_what_the_library_wrote_witness :
  ∃ output,
    MirrorBufferJNI.returned Sample.mirror_buffer
      (MirrorBufferJNI.nativeDecrypt Sample.mirror_buffer Sample.env
         Sample.mem1 1 (Sample.zeros 3)) = Some (Some output) ∧
    length output = length (Sample.zeros 3) ∧
    (∀ i, i < length (Sample.zeros 3) →
       output !! i =
         Some (default x00
                 ((MirrorBufferJNI.mirror_buffer_decrypt Sample.mirror_buffer
                     Sample.unbound (Sample.zeros 3)).2 !! i))) ∧
    (length (MirrorBufferJNI.mirror_buffer_decrypt Sample.mirror_buffer
               Sample.unbound (Sample.zeros 3)).2 = length (Sample.zeros 3) →
     output = (MirrorBufferJNI.mirror_buffer_decrypt Sample.mirror_buffer
                 Sample.unbound (Sample.zeros 3)).2) ∧
    (Sample.zeros 3 = [] → output = []).
Proof.
  apply (decrypt_returns_what_the_library_wrote Sample.mirror_buffer Sample.env
           Sample.mem1 1 Sample.unbound (Sample.zeros 3)).
  - lia.
  - vm_compute. reflexivity.
  - reflexivity.
Defined.



(** ** [utils_hex_to_string] *)

Section HexToString.
Import Utils.

Lemma store_spec cs : ∀ str off,
  off + length cs ≤ length str →
  store str off cs = Ret (take off str ++ cs ++ drop (off + length cs) str).
Proof.
  induction cs as [|c rest IH]; intros str off Hlen; simpl in *.
  - by rewrite Nat.add_0_r, take_drop.
  - rewrite bool_decide_eq_true_2 by lia.
    rewrite IH by (rewrite length_insert; lia). f_equal.
    rewrite (take_S_r _ off c) by (apply list_lookup_insert_eq; lia).
    rewrite take_insert_ge by lia.
    rewrite drop_insert_lt by lia.
    rewrite <- app_assoc. simpl. by rewrite Nat.add_succ_r.
Qed.

Lemma hex_string_length bytes : length (hex_string bytes) = length bytes * 2.
Proof.
  unfold hex_string. induction bytes as [|b bytes IH]; [done|].
  rewrite bind_cons, length_app, IH. simpl. lia.
Qed.

Lemma hex_string_cons b bytes :
  hex_string (b :: bytes) =
    hex_digit (Byte.to_N b / 16) :: hex_digit (Byte.to_N b mod 16) ::
    hex_string bytes.
Proof. done. Qed.

(** The loop, [count] rounds from byte [i] on: the chars before [i * 2] are
    kept, the digits of the [count] bytes follow, and at least one char
    (the NUL of the last [sprintf]) is left behind them. *)
Lemma hex_loop_spec data count : ∀ i str,
  i + count ≤ length data →
  (i + count) * 2 + 1 ≤ length str →
  ∃ rest,
    hex_loop data str i count =
      Ret (take (i * 2) str ++ hex_string (take count (drop i data)) ++ rest) ∧
    i * 2 + count * 2 + length rest = length str.
Proof.
  induction count as [|count IH]; intros i str Hdata Hstr; cbn [hex_loop].
  - exists (drop (i * 2) str). rewrite take_0. simpl. rewrite take_drop. split; [done|].
    rewrite length_drop. lia.
  - destruct (lookup_lt_is_Some_2 data i) as [b Hb]; [lia|]. rewrite Hb.
    rewrite store_spec by (simpl; lia). cbn [sprintf_02x length].
    set (str' := take (i * 2) str ++ _).
    assert (length str' = length str) as Hlen'.
    { subst str'. rewrite length_app, length_take. simpl. rewrite length_drop. lia. }
    destruct (IH (S i) str') as (rest & -> & Hrest); [lia | lia |].
    exists rest. split; [|lia]. f_equal.
    rewrite (drop_S data b i Hb). simpl. subst str'.
    assert (length (take (i * 2) str) = i * 2) as Ht
      by (rewrite length_take; lia).
    replace (S (S (i * 2))) with (length (take (i * 2) str) + 2) by lia.
    rewrite take_app_ge by lia.
    replace (length (take (i * 2) str) + 2 - length (take (i * 2) str)) with 2
      by lia.
    unfold sprintf_02x. simpl. by rewrite <- app_assoc.
Qed.

Lemma utils_hex_to_string_spec a data len :
  len ≤ length data →
  (Z.of_nat len * 2 + 1 ≤ INT_MAX)%Z →
  utils_hex_to_string a data len =
    if malloc_ok a (len * 2 + 1)
    then Ret (Some (hex_string (take len data) ++ [NUL]))
    else Ret None.
Proof.
  intros Hdata Hint. unfold utils_hex_to_string, malloc.
  rewrite bool_decide_eq_true_2 by done.
  destruct (malloc_ok a (len * 2 + 1)); [|done].
  set (str := garbage a <$> seq 0 (len * 2 + 1)).
  assert (length str = len * 2 + 1) as Hstr
    by (subst str; by rewrite length_fmap, length_seq).
  destruct (hex_loop_spec data len 0 str) as (rest & -> & Hrest);
    [lia | lia |].
  cbn [Nat.mul Nat.add] in *. rewrite take_0, drop_0 in *. cbn [app] in *.
  assert (length (hex_string (take len data)) = len * 2) as Hhex
    by (rewrite hex_string_length, length_take; lia).
  rewrite store_spec by (rewrite length_app; cbn [length]; lia).
  do 2 f_equal.
  rewrite take_app_length' by done.
  rewrite drop_ge by (rewrite length_app; cbn [length]; lia).
  done.
Qed.

Lemma hex_digit_is_digit n : (n < 16)%N → hex_digit n ∈ hex_digits.
Proof.
  intros Hn. unfold hex_digit.
  destruct (lookup_lt_is_Some_2 hex_digits (N.to_nat n)) as [c Hc];
    [simpl; lia|].
  rewrite Hc. simpl. by eapply list_elem_of_lookup_2.
Qed.

Lemma hex_string_digits bytes : Forall (λ c, c ∈ hex_digits) (hex_string bytes).
Proof.
  induction bytes as [|b bytes IH]; [constructor|].
  rewrite hex_string_cons.
  assert (Byte.to_N b < 256)%N as Hb
    by (pose proof (Byte.to_N_bounded b); lia).
  constructor; [|constructor; [|done]]; apply hex_digit_is_digit.
  - apply N.Div0.div_lt_upper_bound. lia.
  - apply N.mod_lt. lia.
Qed.

Lemma NUL_is_no_digit : NUL ∉ hex_digits.
Proof.
  unfold hex_digits.
  repeat (apply not_elem_of_cons; split; [discriminate|]).
  apply not_elem_of_nil.
Qed.

Lemma strlen_digits cs rest :
  Forall (λ c, c ∈ hex_digits) cs → strlen (cs ++ NUL :: rest) = length cs.
Proof.
  induction 1 as [|c cs Hc _ IH]; cbn [strlen app length].
  - by rewrite bool_decide_eq_true_2.
  - rewrite bool_decide_eq_false_2; [by rewrite IH|].
    intros ->. by apply NUL_is_no_digit.
Qed.

Lemma unhex_byte b :
  hex_value (hex_digit (Byte.to_N b / 16)) = Some (Byte.to_N b / 16)%N ∧
  hex_value (hex_digit (Byte.to_N b mod 16)) = Some (Byte.to_N b mod 16)%N ∧
  Byte.of_N (Byte.to_N b / 16 * 16 + Byte.to_N b mod 16) = Some b.
Proof. destruct b; vm_compute; done. Qed.

Lemma unhex_hex_string bytes : unhex (hex_string bytes) = Some bytes.
Proof.
  induction bytes as [|b bytes IH]; [done|].
  rewrite hex_string_cons. cbn [unhex].
  destruct (unhex_byte b) as (-> & -> & Hb). cbn [mbind option_bind].
  rewrite Hb. cbn [mbind option_bind]. by rewrite IH.
Qed.

End HexToString.

(** X16: for [len] bytes that [data] has, and [len * 2 + 1] within [int],
    [utils_hex_to_string] returns [NULL] if [malloc] fails, and otherwise a
    block that holds exactly the hex string of the first [len] bytes and the
    terminating NUL, whatever the block held before: no store falls outside
    the block, the C string has length [len * 2], and all its chars are
    lowercase hex digits. *)
Theorem hex_to_string_result
    (a : Utils.allocator) (data : list byte) (len : nat) :
  len ≤ length data →
  (Z.of_nat len * 2 + 1 ≤ Utils.INT_MAX)%Z →
  Utils.utils_hex_to_string a data len =
    (if Utils.malloc_ok a (len * 2 + 1)
     then Ret (Some (Utils.hex_string (take len data) ++ [Utils.NUL]))
     else Ret None) ∧
  Utils.strlen (Utils.hex_string (take len data) ++ [Utils.NUL]) = len * 2 ∧
  Forall (λ c, c ∈ Utils.hex_digits) (Utils.hex_string (take len data)).
Proof.
  intros Hdata Hint. split; [by apply utils_hex_to_string_spec|]. split.
  - rewrite strlen_digits by apply hex_string_digits.
    rewrite hex_string_length, length_take. lia.
  - apply hex_string_digits.
Qed.

Lemma hex_to_string_result_witness :
  Utils.utils_hex_to_string Sample.allocator
      [Byte.x00; Byte.xab; Byte.xff; Byte.x10] 3 =
    (if Utils.malloc_ok Sample.allocator (3 * 2 + 1)
     then Ret (Some (Utils.hex_string
                       (take 3 [Byte.x00; Byte.xab; Byte.xff; Byte.x10]) ++
                     [Utils.NUL]))
     else Ret None) ∧
  Utils.strlen (Utils.hex_string
                  (take 3 [Byte.x00; Byte.xab; Byte.xff; Byte.x10]) ++
                [Utils.NUL]) = 3 * 2 ∧
  Forall (λ c, c ∈ Utils.hex_digits)
    (Utils.hex_string (take 3 [Byte.x00; Byte.xab; Byte.xff; Byte.x10])).
Proof.
  apply (hex_to_string_result Sample.allocator
           [Byte.x00; Byte.xab; Byte.xff; Byte.x10] 3).
  - simpl. lia.
  - vm_compute. discriminate.
Defined.

(** X17: the string that [utils_hex_to_string] returns loses nothing: read
    back two digits at a time it gives the first [len] bytes of [data], so
    two calls that return the same string were given the same bytes. *)
Theorem hex_to_string_loses_nothing
    (a1 a2 : Utils.allocator) (data1 data2 : list byte) (len1 len2 : nat)
    (str1 str2 : list Ascii.ascii) :
  len1 ≤ length data1 →
  len2 ≤ length data2 →
  (Z.of_nat len1 * 2 + 1 ≤ Utils.INT_MAX)%Z →
  (Z.of_nat len2 * 2 + 1 ≤ Utils.INT_MAX)%Z →
  Utils.utils_hex_to_string a1 data1 len1 = Ret (Some str1) →
  Utils.utils_hex_to_string a2 data2 len2 = Ret (Some str2) →
  Utils.unhex (take (Utils.strlen str1) str1) = Some (take len1 data1) ∧
  (str1 = str2 → take len1 data1 = take len2 data2).
Proof.
  intros Hd1 Hd2 Hi1 Hi2 H1 H2.
  rewrite utils_hex_to_string_spec in H1, H2 by done.
  destruct (Utils.malloc_ok a1 _); [|done].
  destruct (Utils.malloc_ok a2 _); [|done].
  simplify_eq.
  assert (∀ bytes,
            Utils.unhex (take (Utils.strlen (Utils.hex_string bytes ++ [Utils.NUL]))
                           (Utils.hex_string bytes ++ [Utils.NUL])) = Some bytes)
    as Hback.
  { intros bytes. rewrite strlen_digits by apply hex_string_digits.
    rewrite take_app_length. apply unhex_hex_string. }
  split; [apply Hback|].
  intros Heq. pose proof (Hback (take len1 data1)) as Hb1.
  rewrite Heq, Hback in Hb1. by simplify_eq.
Qed.

Lemma hex_to_string_loses_nothing_witness :
  Utils.unhex
    (take (Utils.strlen (Utils.hex_string [Byte.xde; Byte.xad] ++ [Utils.NUL]))
          (Utils.hex_string [Byte.xde; Byte.xad] ++ [Utils.NUL])) =
    Some (take 2 [Byte.xde; Byte.xad; Byte.xbe]) ∧
  (Utils.hex_string [Byte.xde; Byte.xad] ++ [Utils.NUL] =
   Utils.hex_string [Byte.xde; Byte.xad] ++ [Utils.NUL] →
   take 2 [Byte.xde; Byte.xad; Byte.xbe] = take 2 [Byte.xde; Byte.xad]).
Proof.
  apply (hex_to_string_loses_nothing Sample.allocator Sample.allocator
           [Byte.xde; Byte.xad; Byte.xbe] [Byte.xde; Byte.xad] 2 2).
  - simpl. lia.
  - simpl. lia.
  - vm_compute. discriminate.
  - vm_compute. discriminate.
  - vm_compute. reflexivity.
  - vm_compute. reflexivity.
Defined.

(** X18: calls through the handles of two different live decryptors do not
    interfere.  Given room for the output arrays, a Decrypt through one
    handle and a Decrypt (or an InitStream) through the other give the same
    outputs and leave the same native heap in either order. *)
Theorem decryptors_are_independent
    (lib : MirrorBufferJNI.mirror_buffer_lib) (env : JNIEnv)
    (mem : gmap Z (MirrorBufferJNI.mirror_buffer_t lib))
    (h1 h2 sid : Z) (obj1 obj2 : MirrorBufferJNI.mirror_buffer_t lib)
    (A B : list byte) :
  h1 ≠ 0%Z → h2 ≠ 0%Z → h1 ≠ h2 →
  mem !! h1 = Some obj1 → mem !! h2 = Some obj2 →
  heap_has_room env (length A) = true →
  heap_has_room env (length B) = true →
  ∃ out1 out2 m1 m2 m12 s2 m1s log,
    MirrorBufferJNI.nativeDecrypt lib env mem h1 A = Ret (Some out1, m1, []) ∧
    MirrorBufferJNI.nativeDecrypt lib env m1 h2 B = Ret (Some out2, m12, []) ∧
    MirrorBufferJNI.nativeDecrypt lib env mem h2 B = Ret (Some out2, m2, []) ∧
    MirrorBufferJNI.nativeDecrypt lib env m2 h1 A = Ret (Some out1, m12, []) ∧
    MirrorBufferJNI.nativeInitAes lib mem h2 sid = Ret (tt, s2, log) ∧
    MirrorBufferJNI.nativeDecrypt lib env s2 h1 A = Ret (Some out1, m1s, []) ∧
    MirrorBufferJNI.nativeInitAes lib m1 h2 sid = Ret (tt, m1s, log).
Proof.
  intros Hn1 Hn2 Hne H1 H2 HA HB.
  eexists _, _, _, _, _, _, _, _.
  split; [by apply (nativeDecrypt_live lib env mem h1 obj1 A)|].
  split; [apply (nativeDecrypt_live lib env _ h2 obj2 B);
            [done | by rewrite lookup_insert_ne | done]|].
  split; [by apply (nativeDecrypt_live lib env mem h2 obj2 B)|].
  split.
  { rewrite (nativeDecrypt_live lib env _ h1 obj1 A);
      [| done | by rewrite lookup_insert_ne | done].
    by rewrite insert_insert_ne. }
  split; [by apply (nativeInitAes_live lib mem h2 sid obj2)|].
  split.
  { apply (nativeDecrypt_live lib env _ h1 obj1 A);
      [done | by rewrite lookup_insert_ne | done]. }
  rewrite (nativeInitAes_live lib _ h2 sid obj2);
    [| done | by rewrite lookup_insert_ne].
  by rewrite insert_insert_ne.
Qed.

Lemma decryptors_are_independent_witness :
  ∃ out1 out2 m1 m2 m12 s2 m1s log,
    MirrorBufferJNI.nativeDecrypt Sample.mirror_buffer Sample.env
        Sample.two_streams 1 (Sample.zeros 5) = Ret (Some out1, m1, []) ∧
    MirrorBufferJNI.nativeDecrypt Sample.mirror_buffer Sample.env
        m1 2 (Sample.zeros 9) = Ret (Some out2, m12, []) ∧
    MirrorBufferJNI.nativeDecrypt Sample.mirror_buffer Sample.env
        Sample.two_streams 2 (Sample.zeros 9) = Ret (Some out2, m2, []) ∧
    MirrorBufferJNI.nativeDecrypt Sample.mirror_buffer Sample.env
        m2 1 (Sample.zeros 5) = Ret (Some out1, m12, []) ∧
    MirrorBufferJNI.nativeInitAes Sample.mirror_buffer
        Sample.two_streams 2 9 = Ret (tt, s2, log) ∧
    MirrorBufferJNI.nativeDecrypt Sample.mirror_buffer Sample.env
        s2 1 (Sample.zeros 5) = Ret (Some out1, m1s, []) ∧
    MirrorBufferJNI.nativeInitAes Sample.mirror_buffer m1 2 9 =
      Ret (tt, m1s, log).
Proof.
  apply (decryptors_are_independent Sample.mirror_buffer Sample.env
           Sample.two_streams 1 2 9 Sample.bound Sample.unbound
           (Sample.zeros 5) (Sample.zeros 9)).
  - lia.
  - lia.
  - lia.
  - vm_compute. reflexivity.
  - vm_compute. reflexivity.
  - reflexivity.
  - reflexivity.
Defined.
